(** * NurSun Energy Reporter: financial projection engine and horizon geometry

    A shallow embedding of the two calculation units of the dashboard
    (the [projections] / [paybackPeriod] / [totalRoi] memos of the [App]
    component and the [HorizonChart] / [PvPerformance] components of
    [components/PvPerformance.tsx]) together with the properties the
    specification states about them.

    JavaScript numbers are modelled by [number]: an exact rational, or one
    of the three non-finite values.  Arithmetic on finite values is exact
    (binary64 rounding and the sign of zero are outside the model); the
    non-finite values follow the IEEE rules that JavaScript uses, so that a
    division by zero yields [PosInf], [NegInf] or [NaN] and never raises. *)

From Stdlib Require Import QArith Qround Qabs Qpower ZArith List String Ascii Bool.
From Stdlib Require Import Lia Lqa Permutation Sorted.
Import ListNotations.

Set Implicit Arguments.

(* ================================================================== *)
(** ** JavaScript numbers *)
(* ================================================================== *)

Module JsNumber.

Local Open Scope Q_scope.

Inductive number : Type :=
| Fin (q : Q)
| PosInf
| NegInf
| NaN.

(** Sign of a rational, used by the rules for products and quotients. *)
Definition Qsign (q : Q) : comparison := q ?= 0.

Definition nneg (x : number) : number :=
  match x with
  | Fin a => Fin (- a)
  | PosInf => NegInf
  | NegInf => PosInf
  | NaN => NaN
  end.

(** [x + y] *)
Definition nadd (x y : number) : number :=
  match x, y with
  | NaN, _ | _, NaN => NaN
  | Fin a, Fin b => Fin (Qred (a + b))
  | PosInf, NegInf | NegInf, PosInf => NaN
  | PosInf, _ | _, PosInf => PosInf
  | NegInf, _ | _, NegInf => NegInf
  end.

(** [x - y] *)
Definition nsub (x y : number) : number := nadd x (nneg y).

Definition inf_of_sign (s : comparison) : number :=
  match s with
  | Gt => PosInf
  | Lt => NegInf
  | Eq => NaN
  end.

(** [x * y] *)
Definition nmul (x y : number) : number :=
  match x, y with
  | NaN, _ | _, NaN => NaN
  | Fin a, Fin b => Fin (Qred (a * b))
  | Fin a, PosInf | PosInf, Fin a => inf_of_sign (Qsign a)
  | Fin a, NegInf | NegInf, Fin a => inf_of_sign (CompOpp (Qsign a))
  | PosInf, PosInf | NegInf, NegInf => PosInf
  | PosInf, NegInf | NegInf, PosInf => NegInf
  end.

(** [x / y].  A zero divisor is the positive zero: the zeros that reach a
    division in this program come from [parseFloat(value) || 0] or from
    [Math.round] of a non-negative value. *)
Definition ndiv (x y : number) : number :=
  match x, y with
  | NaN, _ | _, NaN => NaN
  | Fin a, Fin b =>
      match Qsign b with
      | Eq => inf_of_sign (Qsign a)
      | _ => Fin (Qred (a / b))
      end
  | Fin _, PosInf | Fin _, NegInf => Fin 0
  | PosInf, Fin b =>
      match Qsign b with Lt => NegInf | _ => PosInf end
  | NegInf, Fin b =>
      match Qsign b with Lt => PosInf | _ => NegInf end
  | _, _ => NaN
  end.

(** [Math.pow(x, i)] for the non-negative integer exponents of the loop
    counter.  An exponent of zero gives 1 for every base, [NaN] included. *)
Definition Math_pow (x : number) (i : nat) : number :=
  match i with
  | O => Fin 1
  | S _ =>
      match x with
      | Fin a => Fin (Qred (a ^ Z.of_nat i))
      | PosInf => PosInf
      | NegInf => if Nat.odd i then NegInf else PosInf
      | NaN => NaN
      end
  end.

(** Three-way comparison; [None] when an operand is [NaN]. *)
Definition ncompare (x y : number) : option comparison :=
  match x, y with
  | NaN, _ | _, NaN => None
  | Fin a, Fin b => Some (a ?= b)
  | PosInf, PosInf | NegInf, NegInf => Some Eq
  | PosInf, _ | _, NegInf => Some Gt
  | NegInf, _ | _, PosInf => Some Lt
  end.

(** [x >= y] *)
Definition nge (x y : number) : bool :=
  match ncompare x y with
  | Some Gt | Some Eq => true
  | _ => false
  end.

(** [x <= y] *)
Definition nle (x y : number) : bool :=
  match ncompare x y with
  | Some Lt | Some Eq => true
  | _ => false
  end.

(** [x < y] *)
Definition nlt (x y : number) : bool :=
  match ncompare x y with
  | Some Lt => true
  | _ => false
  end.

(** [x > y] *)
Definition ngt (x y : number) : bool :=
  match ncompare x y with
  | Some Gt => true
  | _ => false
  end.

(** [isNaN(x)] *)
Definition isNaN (x : number) : bool :=
  match x with
  | NaN => true
  | _ => false
  end.

Definition isFinite (x : number) : bool :=
  match x with
  | Fin _ => true
  | _ => false
  end.

(** [Math.round(x)]: the nearest integer, a tie going to the larger one. *)
Definition Math_round (x : number) : number :=
  match x with
  | Fin a => Fin (inject_Z (Qfloor (a + (1 # 2))))
  | _ => x
  end.

(** [Math.max(x, y)] and [Math.min(x, y)]: [NaN] as soon as one argument
    is. *)
Definition Math_max (x y : number) : number :=
  match ncompare x y with
  | None => NaN
  | Some Lt => y
  | Some _ => x
  end.

Definition Math_min (x y : number) : number :=
  match ncompare x y with
  | None => NaN
  | Some Gt => y
  | Some _ => x
  end.

(** [parseFloat(x.toFixed(f))].  [toFixed] picks the integer [n] with
    [n / 10^f] nearest to the magnitude of [x] (the larger one on a tie) and
    puts the sign in front; from [1e21] on it prints the number itself. *)
Definition toFixed (f : nat) (x : number) : number :=
  match x with
  | Fin a =>
      if Qle_bool (inject_Z (10 ^ 21)) (Qabs a) then Fin a
      else
        let scale := inject_Z (10 ^ Z.of_nat f) in
        let n := inject_Z (Qfloor (Qabs a * scale + (1 # 2))) in
        match Qsign a with
        | Lt => Fin (Qred (- (n / scale)))
        | _ => Fin (Qred (n / scale))
        end
  | _ => x
  end.

(** A finite value that is not negative. *)
Definition nonneg (x : number) : Prop :=
  match x with
  | Fin a => 0 <= a
  | _ => False
  end.

(** Two finite values in ascending order. *)
Definition fin_le (x y : number) : Prop :=
  match x, y with
  | Fin a, Fin b => a <= b
  | _, _ => False
  end.

End JsNumber.
Export JsNumber.

(** Outcome of a computation that may throw. *)
Inductive JsError : Type :=
| TypeError.

Inductive result (A : Type) : Type :=
| Ok (v : A)
| Throw (e : JsError).
Arguments Throw {A} e.

(* ================================================================== *)
(** ** Data model ([types.ts]) *)
(* ================================================================== *)

(** The numeric fields are finite: they come from the defaults, or from
    [parseFloat(value) || 0] in the assumptions form, which turns an
    unparsable entry into 0. *)
Record ProjectAssumptions : Type := {
  stationCost : Q;
  systemCapacity : Q;
  annualYieldYear1 : Q;
  usdSomExchange : Q;
  panelDegradation : Q;
  inflationRate : Q;
  baseTariff : Q;
  projectLifetime : Q;
  managerName : string;
  managerRole : string;
  projectLocation : string;
  customerName : string
}.

Record YearProjection : Type := {
  year : Z;
  tariff : number;
  yield : number;
  revenue : number;
  cumulativeRevenue : number;
  isBreakEven : bool
}.

Definition DEFAULT_ASSUMPTIONS : ProjectAssumptions := {|
  stationCost := 694000;
  systemCapacity := 1000;
  annualYieldYear1 := 1683000;
  usdSomExchange := 87.50;
  panelDegradation := 0.0055;
  inflationRate := 0.07;
  baseTariff := 4.47;
  projectLifetime := 25;
  managerName := "Milan Turdumambetov";
  managerRole := "Project Manager";
  projectLocation := "Bishkek, Kyrgyzstan";
  customerName := "Standard Group Logistics"
|}.

(** [{ ...assumptions, [name]: value }] of the form's [handleChange], for
    the two fields that the summaries divide by or count with. *)
Definition set_stationCost (v : Q) (a : ProjectAssumptions)
  : ProjectAssumptions :=
  {| stationCost := v;
     systemCapacity := systemCapacity a;
     annualYieldYear1 := annualYieldYear1 a;
     usdSomExchange := usdSomExchange a;
     panelDegradation := panelDegradation a;
     inflationRate := inflationRate a;
     baseTariff := baseTariff a;
     projectLifetime := projectLifetime a;
     managerName := managerName a;
     managerRole := managerRole a;
     projectLocation := projectLocation a;
     customerName := customerName a |}.

Definition set_projectLifetime (v : Q) (a : ProjectAssumptions)
  : ProjectAssumptions :=
  {| stationCost := stationCost a;
     systemCapacity := systemCapacity a;
     annualYieldYear1 := annualYieldYear1 a;
     usdSomExchange := usdSomExchange a;
     panelDegradation := panelDegradation a;
     inflationRate := inflationRate a;
     baseTariff := baseTariff a;
     projectLifetime := v;
     managerName := managerName a;
     managerRole := managerRole a;
     projectLocation := projectLocation a;
     customerName := customerName a |}.

(** A small scenario in which a rounded snapshot differs from the value it
    was rounded from: a yearly revenue of 199 / 2 = 99.5 against a station
    cost of 100. *)
Definition half_unit_scenario : ProjectAssumptions := {|
  stationCost := 100;
  systemCapacity := 1;
  annualYieldYear1 := 199;
  usdSomExchange := 2;
  panelDegradation := 0;
  inflationRate := 0;
  baseTariff := 1;
  projectLifetime := 3;
  managerName := "";
  managerRole := "";
  projectLocation := "";
  customerName := ""
|}.

(* ================================================================== *)
(** ** Financial projection engine ([App], the three [useMemo] blocks) *)
(* ================================================================== *)

Module Engine.

(** The variables of the [for] loop of [projections]. *)
Record LoopState : Type := {
  data : list YearProjection;
  currentCumulative : number;
  breakEvenYearFound : bool
}.

Definition loop_init : LoopState :=
  {| data := []; currentCumulative := Fin 0; breakEvenYearFound := false |}.

(** One pass through the body of the loop, for counter [i]. *)
Definition loop_body (a : ProjectAssumptions) (st : LoopState) (i : nat)
  : LoopState :=
  let year := (2026 + Z.of_nat i)%Z in
  let degradationFactor :=
    Math_pow (nsub (Fin 1) (Fin (panelDegradation a))) i in
  let inflationFactor :=
    Math_pow (nadd (Fin 1) (Fin (inflationRate a))) i in
  let annualYield := nmul (Fin (annualYieldYear1 a)) degradationFactor in
  let tariff := nmul (Fin (baseTariff a)) inflationFactor in
  let revenue := ndiv (nmul annualYield tariff) (Fin (usdSomExchange a)) in
  let currentCumulative := nadd (currentCumulative st) revenue in
  let isBreakEven :=
    negb (breakEvenYearFound st)
    && nge currentCumulative (Fin (stationCost a)) in
  {| data :=
       data st ++
       [ {| year := year;
            tariff := toFixed 2 tariff;
            yield := Math_round annualYield;
            revenue := Math_round revenue;
            cumulativeRevenue := Math_round currentCumulative;
            isBreakEven := isBreakEven |} ];
     currentCumulative := currentCumulative;
     breakEvenYearFound := breakEvenYearFound st || isBreakEven |}.

(** Number of passes of [for (let i = 0; i < projectLifetime; i++)]: the
    counters [0, 1, ...] below the lifetime. *)
Definition iterations (a : ProjectAssumptions) : nat :=
  Z.to_nat (Qceiling (projectLifetime a)).

Definition run_loop (a : ProjectAssumptions) (n : nat) : LoopState :=
  fold_left (loop_body a) (seq 0 n) loop_init.

Definition projections (a : ProjectAssumptions) : list YearProjection :=
  data (run_loop a (iterations a)).

(** [projections.find(p => p.isBreakEven)] followed by
    [projections.indexOf(breakEven)]: [find] hands back the array element
    itself, so [indexOf] stops at the position where [find] stopped. *)
Fixpoint find_indexed (l : list YearProjection) (k : nat)
  : option (nat * YearProjection) :=
  match l with
  | [] => None
  | p :: l' => if isBreakEven p then Some (k, p) else find_indexed l' (S k)
  end.

Definition paybackPeriod (a : ProjectAssumptions) : result number :=
  let projections := projections a in
  match find_indexed projections 0 with
  | None => Ok (Fin (projectLifetime a))
  | Some (idx, breakEven) =>
      if Nat.eqb idx 0 then Ok (Fin 1)
      else
        match nth_error projections (idx - 1) with
        | None => Throw TypeError
        | Some prevYear =>
            let needed :=
              nsub (Fin (stationCost a)) (cumulativeRevenue prevYear) in
            Ok (nadd (Fin (inject_Z (year breakEven - 2026)))
                     (ndiv needed (revenue breakEven)))
        end
  end.

(** [projections[projections.length - 1]] is [undefined] on the empty
    array, and reading [cumulativeRevenue] from it throws. *)
Definition totalRoi (a : ProjectAssumptions) : result number :=
  let projections := projections a in
  match nth_error projections (List.length projections - 1) with
  | None => Throw TypeError
  | Some last =>
      let finalCumulative := cumulativeRevenue last in
      Ok (nmul (ndiv finalCumulative (Fin (stationCost a))) (Fin 100))
  end.

(** *** The per-year formulas of the specification *)

Definition yield_at (a : ProjectAssumptions) (i : nat) : number :=
  nmul (Fin (annualYieldYear1 a))
       (Math_pow (nsub (Fin 1) (Fin (panelDegradation a))) i).

Definition tariff_at (a : ProjectAssumptions) (i : nat) : number :=
  nmul (Fin (baseTariff a))
       (Math_pow (nadd (Fin 1) (Fin (inflationRate a))) i).

Definition revenue_at (a : ProjectAssumptions) (i : nat) : number :=
  ndiv (nmul (yield_at a i) (tariff_at a i)) (Fin (usdSomExchange a)).

(** [cumulative_upto a i] is the sum of the revenues of the years before
    index [i], so [cumulative_upto a 0] is the initial 0 and
    [cumulative_at a i] is the sum up to and including year [i]. *)
Fixpoint cumulative_upto (a : ProjectAssumptions) (i : nat) : number :=
  match i with
  | O => Fin 0
  | S j => nadd (cumulative_upto a j) (revenue_at a j)
  end.

Definition cumulative_at (a : ProjectAssumptions) (i : nat) : number :=
  cumulative_upto a (S i).

(** Year [i] has reached break-even: the running sum, at full precision,
    is at least the station cost. *)
Definition crossed (a : ProjectAssumptions) (i : nat) : bool :=
  nge (cumulative_at a i) (Fin (stationCost a)).

Definition crossed_before (a : ProjectAssumptions) (i : nat) : bool :=
  existsb (crossed a) (seq 0 i).

(** The first year of the lifetime that reaches break-even, if any. *)
Definition break_even_index (a : ProjectAssumptions) : option nat :=
  find (crossed a) (seq 0 (iterations a)).

(** The entry the specification describes for year index [i]. *)
Definition entry (a : ProjectAssumptions) (i : nat) : YearProjection :=
  {| year := (2026 + Z.of_nat i)%Z;
     tariff := toFixed 2 (tariff_at a i);
     yield := Math_round (yield_at a i);
     revenue := Math_round (revenue_at a i);
     cumulativeRevenue := Math_round (cumulative_at a i);
     isBreakEven := negb (crossed_before a i) && crossed a i |}.

(** The documented domain of the assumptions that enter the revenue. *)
Definition documented_domain (a : ProjectAssumptions) : Prop :=
  (0 <= annualYieldYear1 a /\ 0 <= baseTariff a /\
   0 <= panelDegradation a /\ panelDegradation a < 1 /\
   -1 <= inflationRate a /\ 0 < usdSomExchange a)%Q.

(** The payback formula as the specification writes it, on the unrounded
    values. *)
Definition spec_payback (a : ProjectAssumptions) (idx : nat) : number :=
  nadd (Fin (inject_Z (Z.of_nat idx)))
       (ndiv (nsub (Fin (stationCost a)) (cumulative_at a (idx - 1)))
             (revenue_at a idx)).

End Engine.

(* ================================================================== *)
(** ** Built-ins the components call *)
(* ================================================================== *)

(** The transcendental functions of [Math], the conversion of a number to
    text inside a template literal and [parseFloat] are the runtime's; the
    components are written against this interface. *)
Class JsRuntime : Type := {
  Math_PI : number;
  Math_sin : number -> number;
  Math_cos : number -> number;
  Math_asin : number -> number;
  Math_acos : number -> number;
  numberToString : number -> string;
  parseFloat : string -> number
}.

(** *** Text helpers *)

Module Text.

Local Open Scope string_scope.

(** White space of [String.prototype.trim] and of the [\s] class, within
    ASCII: tab, line feed, vertical tab, form feed, carriage return and
    space. *)
Definition is_space (c : ascii) : bool :=
  let n := nat_of_ascii c in
  ((9 <=? n) && (n <=? 13) || (n =? 32))%nat.

Definition LF : ascii := ascii_of_nat 10.
Definition CR : ascii := ascii_of_nat 13.

Definition cons_head (c : ascii) (l : list string) : list string :=
  match l with
  | [] => [String c EmptyString]
  | t :: ts => String c t :: ts
  end.

(** [s.split(/\r?\n/)] *)
Fixpoint split_lines (s : string) : list string :=
  match s with
  | EmptyString => [EmptyString]
  | String c s' =>
      if Ascii.eqb c LF then EmptyString :: split_lines s'
      else
        match s' with
        | String c' s'' =>
            if Ascii.eqb c CR && Ascii.eqb c' LF
            then EmptyString :: split_lines s''
            else cons_head c (split_lines s')
        | EmptyString => cons_head c (split_lines s')
        end
  end.

Fixpoint trim_start (s : string) : string :=
  match s with
  | EmptyString => EmptyString
  | String c s' => if is_space c then trim_start s' else s
  end.

Fixpoint trim_end (s : string) : string :=
  match s with
  | EmptyString => EmptyString
  | String c s' =>
      match trim_end s' with
      | EmptyString => if is_space c then EmptyString else String c EmptyString
      | t => String c t
      end
  end.

(** [s.trim()] *)
Definition trim (s : string) : string := trim_end (trim_start s).

(** [s.split(/\s+/)]; [in_sep] tells that the previous character was part
    of a separator. *)
Fixpoint split_ws_from (in_sep : bool) (s : string) : list string :=
  match s with
  | EmptyString => [EmptyString]
  | String c s' =>
      if is_space c then
        if in_sep then split_ws_from true s'
        else EmptyString :: split_ws_from true s'
      else cons_head c (split_ws_from false s')
  end.

Definition split_ws (s : string) : list string := split_ws_from false s.

(** [l.join(sep)] *)
Fixpoint join (sep : string) (l : list string) : string :=
  match l with
  | [] => EmptyString
  | [t] => t
  | t :: ts => t ++ sep ++ join sep ts
  end.

End Text.

(* ================================================================== *)
(** ** Horizon chart ([HorizonChart] in [components/PvPerformance.tsx]) *)
(* ================================================================== *)

(** [PvPerformance.tsx] holds two revisions of the component.  The
    embedding follows the first one, which draws the sun paths, registers
    the map click handler and closes the silhouette along the rim in steps
    of 5 degrees. *)

Record HorizonPoint : Type := {
  azimuth : number;
  height : number
}.

Record Point : Type := {
  x : number;
  y : number
}.

Module Horizon.

(** Strictly ascending azimuths: the order of a profile that is sorted
    before it is handed to the chart. *)
Definition az_lt (p q : HorizonPoint) : Prop :=
  nlt (azimuth p) (azimuth q) = true.

Definition finite_azimuth (p : HorizonPoint) : Prop :=
  isFinite (azimuth p) = true.

Section Chart.

Context {rt : JsRuntime}.

Local Open Scope string_scope.

Definition size : number := Fin 260.
Definition center : number := ndiv size (Fin 2).
Definition radius : number := Fin 90.

(** PVGIS convention: 0 south, -90 east, 90 west, 180 north. *)
Definition getCoords (azimuth height : number) : Point :=
  let angleRad := nmul (nadd azimuth (Fin 90)) (ndiv Math_PI (Fin 180)) in
  let r := nmul radius (nsub (Fin 1) (ndiv height (Fin 90))) in
  {| x := nadd center (nmul r (Math_cos angleRad));
     y := nadd center (nmul r (Math_sin angleRad)) |}.

(** The values of a counter that starts at [from] and is raised by [step]
    for [n] passes. *)
Definition counter_values (from step : Z) (n : nat) : list Z :=
  map (fun k => (from + step * Z.of_nat k)%Z) (seq 0 n).

(** [for (let a = -180; a <= 180; a += 5)]: 73 passes. *)
Definition dummy_azimuths : list Z := counter_values (-180) 5 73.

Definition dummy_point (a : Z) : HorizonPoint :=
  let a := Fin (inject_Z a) in
  let h :=
    nadd (nadd (Fin 8)
               (nmul (Math_sin (ndiv (nmul a Math_PI) (Fin 45))) (Fin 4)))
         (nmul (Math_cos (ndiv (nmul a Math_PI) (Fin 90))) (Fin 3)) in
  {| azimuth := a; height := Math_max (Fin 0) h |}.

Definition dummy : list HorizonPoint := map dummy_point dummy_azimuths.

(** [Array.prototype.sort] with a comparator: the sort is stable, and a
    comparator result of [NaN] counts as 0.  A stable insertion sort stands
    for it; every conforming sort agrees with it when the comparator is a
    consistent order. *)
Section Sort.

Variable A : Type.
Variable comparefn : A -> A -> number.

Fixpoint sort_insert (v : A) (l : list A) : list A :=
  match l with
  | [] => [v]
  | w :: l' =>
      if ngt (comparefn v w) (Fin 0) then w :: sort_insert v l'
      else v :: l
  end.

Fixpoint array_sort (l : list A) : list A :=
  match l with
  | [] => []
  | v :: l' => sort_insert v (array_sort l')
  end.

End Sort.

Definition by_azimuth (a b : HorizonPoint) : number :=
  nsub (azimuth a) (azimuth b).

Definition effectiveHorizon (horizon : option (list HorizonPoint))
  : list HorizonPoint :=
  match horizon with
  | None | Some [] => dummy
  | Some h => array_sort by_azimuth h
  end.

Definition lineTo (p : Point) : string :=
  " L " ++ numberToString (x p) ++ " " ++ numberToString (y p).

(** [for (let a = hi; a >= lo; a -= 5)] of [horizonPath], appending one
    rim point per pass.  [None] when the passes allowed are used up. *)
Fixpoint rim_loop (fuel : nat) (a lo : number) (d : string) : option string :=
  match fuel with
  | O => None
  | S fuel' =>
      if nge a lo
      then rim_loop fuel' (nsub a (Fin 5)) lo (d ++ lineTo (getCoords a (Fin 0)))
      else Some d
  end.

(** Passes after which the loop has stopped if it stops at all: between
    finite bounds the counter falls below [lo] after
    [floor((hi - lo) / 5) + 1] passes; with a bound that is not finite the
    test either fails at once or holds for ever. *)
Definition rim_fuel (hi lo : number) : nat :=
  match hi, lo with
  | Fin h, Fin l => Z.to_nat (Qfloor ((h - l) / 5)) + 2
  | _, _ => 1
  end.

(** Passes the loop makes from a finite counter [h] down to [l]. *)
Definition rim_passes (h l : Q) : nat :=
  Z.to_nat (Qfloor ((h - l) / 5) + 1).

Definition first_azimuth (l : list HorizonPoint) : number :=
  match l with
  | [] => NaN
  | p :: _ => azimuth p
  end.

Definition last_azimuth (l : list HorizonPoint) : number :=
  first_azimuth (rev l).

(** The path data of the silhouette; [None] stands for a rim loop that
    does not stop. *)
Definition horizonPath_of (effectiveHorizon : list HorizonPoint)
  : option string :=
  match map (fun p => getCoords (azimuth p) (height p)) effectiveHorizon with
  | [] => Some ""
  | p0 :: rest =>
      let d := "M " ++ numberToString (x p0) ++ " " ++ numberToString (y p0) in
      let d := fold_left (fun d p => d ++ lineTo p) rest d in
      let hi := last_azimuth effectiveHorizon in
      let lo := first_azimuth effectiveHorizon in
      match rim_loop (rim_fuel hi lo) hi lo d with
      | None => None
      | Some d => Some (d ++ " Z")
      end
  end.

Definition horizonPath (horizon : option (list HorizonPoint))
  : option string :=
  horizonPath_of (effectiveHorizon horizon).

(** [for (let hourAngle = -180; hourAngle <= 180; hourAngle += 2)]:
    181 passes. *)
Definition hourAngles : list Z := counter_values (-180) 2 181.

Definition deg2rad : number := ndiv Math_PI (Fin 180).
Definition rad2deg : number := ndiv (Fin 180) Math_PI.

Definition sinAlt (lat declination : number) (hourAngle : Z) : number :=
  let latRad := nmul lat deg2rad in
  let decRad := nmul declination deg2rad in
  let hRad := nmul (Fin (inject_Z hourAngle)) deg2rad in
  nadd (nmul (Math_sin latRad) (Math_sin decRad))
       (nmul (nmul (Math_cos latRad) (Math_cos decRad)) (Math_cos hRad)).

Definition altitude (lat declination : number) (hourAngle : Z) : number :=
  Math_asin (sinAlt lat declination hourAngle).

Definition cosAz (lat declination : number) (hourAngle : Z) : number :=
  let latRad := nmul lat deg2rad in
  let decRad := nmul declination deg2rad in
  let altitude := altitude lat declination hourAngle in
  ndiv (nsub (Math_sin decRad) (nmul (Math_sin altitude) (Math_sin latRad)))
       (nmul (Math_cos altitude) (Math_cos latRad)).

Definition clampedCosAz (lat declination : number) (hourAngle : Z) : number :=
  Math_max (Fin (-1)) (Math_min (Fin 1) (cosAz lat declination hourAngle)).

Definition sunAzimuth (lat declination : number) (hourAngle : Z) : number :=
  let azimuth :=
    nmul (Math_acos (clampedCosAz lat declination hourAngle)) rad2deg in
  if (hourAngle <? 0)%Z then nneg azimuth else azimuth.

(** One pass through the body of the loop of [getSunPath]. *)
Definition sun_step (lat declination : number) (points : list Point)
  (hourAngle : Z) : list Point :=
  let altitude := altitude lat declination hourAngle in
  if nlt altitude (Fin 0) then points
  else
    points ++
    [ getCoords (sunAzimuth lat declination hourAngle)
                (nmul altitude rad2deg) ].

Definition sunPoints (lat declination : number) : list Point :=
  fold_left (sun_step lat declination) hourAngles [].

Definition getSunPath (lat declination : number) : string :=
  match sunPoints lat declination with
  | [] | [_] => ""
  | p0 :: rest =>
      "M " ++ numberToString (x p0) ++ " " ++ numberToString (y p0) ++ " " ++
      Text.join " "
        (map (fun p => "L " ++ numberToString (x p) ++ " " ++
                       numberToString (y p)) rest)
  end.

Definition junePath (lat : number) : string := getSunPath lat (Fin 23.45).
Definition decPath (lat : number) : string := getSunPath lat (Fin (-23.45)).

(** The badge under the chart title. *)
Definition badge (isReal : bool) : string :=
  if isReal then "Verified: JRC PrintHorizon Data"
  else "Estimated Demo Profile".

End Chart.

End Horizon.

(* ================================================================== *)
(** ** The PV-performance view ([PvPerformance], its horizon state) *)
(* ================================================================== *)

Module View.

Section Component.

Context {rt : JsRuntime}.

(** The [useState] cells that the horizon chart depends on. *)
Record State : Type := {
  lat : number;
  lon : number;
  loading : bool;
  isDataReal : bool;
  horizonData : option (list HorizonPoint)
}.

Definition initial : State := {|
  lat := Fin 41.4228;
  lon := Fin 75.9650;
  loading := false;
  isDataReal := false;
  horizonData := None
|}.

(** One data row of the horizon table, after the two header rows. *)
Definition parse_row (line : string) : list HorizonPoint :=
  match Text.split_ws line with
  | p0 :: p1 :: _ =>
      let az := parseFloat p0 in
      let ht := parseFloat p1 in
      if negb (isNaN az) && negb (isNaN ht)
      then [ {| azimuth := az; height := ht |} ]
      else []
  | _ => []
  end.

(** The body of the [try] block of [fetchHorizon] up to [parsedHorizon]. *)
Definition parseHorizon (hText : string) : list HorizonPoint :=
  let lines :=
    filter (fun l => (0 <? String.length l)%nat)
           (map Text.trim (Text.split_lines hText)) in
  if (2 <? List.length lines)%nat
  then flat_map parse_row (skipn 2 lines)
  else [].

(** What happens to the component, one handler at a time. *)
Inductive Event : Type :=
| MarkerDragEnd (lat lng : number)
| MapClick (lat lng : number)
| LatInput (value : string)
| LonInput (value : string)
| FetchStart
| HorizonResponse (hText : string)
| HorizonFailure
| FetchSettled.

Definition step (s : State) (e : Event) : State :=
  match e with
  | MarkerDragEnd la ln
  | MapClick la ln =>
      {| lat := toFixed 4 la;
         lon := toFixed 4 ln;
         loading := loading s;
         isDataReal := false;
         horizonData := horizonData s |}
  | LatInput value =>
      {| lat := parseFloat value;
         lon := lon s;
         loading := loading s;
         isDataReal := isDataReal s;
         horizonData := horizonData s |}
  | LonInput value =>
      {| lat := lat s;
         lon := parseFloat value;
         loading := loading s;
         isDataReal := isDataReal s;
         horizonData := horizonData s |}
  | FetchStart =>
      {| lat := lat s;
         lon := lon s;
         loading := true;
         isDataReal := isDataReal s;
         horizonData := horizonData s |}
  | HorizonResponse hText =>
      let parsedHorizon := parseHorizon hText in
      if (0 <? List.length parsedHorizon)%nat
      then {| lat := lat s;
              lon := lon s;
              loading := loading s;
              isDataReal := true;
              horizonData := Some parsedHorizon |}
      else s
  | HorizonFailure =>
      {| lat := lat s;
         lon := lon s;
         loading := loading s;
         isDataReal := false;
         horizonData := horizonData s |}
  | FetchSettled =>
      {| lat := lat s;
         lon := lon s;
         loading := false;
         isDataReal := isDataReal s;
         horizonData := horizonData s |}
  end.

Definition run (events : list Event) : State := fold_left step events initial.

(** A profile that came out of [parseHorizon] with at least one row. *)
Definition from_service (h : list HorizonPoint) : Prop :=
  h <> [] /\ exists hText, h = parseHorizon hText.

(** What holds of the two cells in every state: no profile is held and
    the flag is down, or the profile held came from the service. *)
Definition state_inv (s : State) : Prop :=
  match horizonData s with
  | None => isDataReal s = false
  | Some h => from_service h
  end.

(** A change of location made on the map. *)
Definition location_change (e : Event) : bool :=
  match e with
  | MarkerDragEnd _ _ | MapClick _ _ => true
  | _ => false
  end.

(** The chart shows the synthetic profile. *)
Definition shows_synthetic (s : State) : bool :=
  match horizonData s with
  | None | Some [] => true
  | Some _ => false
  end.

(** What [HorizonChart] is rendered with:
    [<HorizonChart lat={lat} horizon={horizonData} isReal={isDataReal} />]. *)
Definition chart_badge (s : State) : string := Horizon.badge (isDataReal s).
Definition chart_path (s : State) : option string :=
  Horizon.horizonPath (horizonData s).

End Component.

End View.

(* ================================================================== *)
(** ** A small runtime, to run the components on concrete inputs *)
(* ================================================================== *)

Module SmallRuntime.

Local Open Scope Q_scope.

Definition on_finite (f : Q -> Q) (v : number) : number :=
  match v with
  | Fin a => Fin (Qred (f a))
  | _ => NaN
  end.

Definition pi : Q := 355 # 113.

(** Truncated power series. *)
Definition sin (a : Q) : Q := a - a ^ 3 / 6 + a ^ 5 / 120.
Definition cos (a : Q) : Q := 1 - a ^ 2 / 2 + a ^ 4 / 24.
Definition asin (a : Q) : Q := a + a ^ 3 / 6.
Definition acos (a : Q) : Q := pi / 2 - asin a.

Definition digit_of (c : ascii) : option Z :=
  let n := nat_of_ascii c in
  if ((48 <=? n) && (n <=? 57))%nat then Some (Z.of_nat (n - 48)) else None.

(** Reads a run of decimal digits: their value, their count, the rest. *)
Fixpoint read_digits (s : string) (acc : Z) (count : nat)
  : Z * nat * string :=
  match s with
  | EmptyString => (acc, count, EmptyString)
  | String c s' =>
      match digit_of c with
      | Some d => read_digits s' (10 * acc + d)%Z (S count)
      | None => (acc, count, s)
      end
  end.

Definition parse_unsigned (s : string) : number :=
  let '(ip, n1, rest) := read_digits s 0%Z 0%nat in
  match rest with
  | String "."%char rest' =>
      let '(fp, n2, _) := read_digits rest' 0%Z 0%nat in
      if (n1 + n2 =? 0)%nat then NaN
      else Fin (Qred (inject_Z ip
                      + inject_Z fp / inject_Z (10 ^ Z.of_nat n2)))
  | _ => if (n1 =? 0)%nat then NaN else Fin (inject_Z ip)
  end.

(** Decimal literals with an optional sign and fraction, after leading
    white space; anything else is [NaN]. *)
Definition parse_float (s : string) : number :=
  match Text.trim_start s with
  | String "-"%char s' => nneg (parse_unsigned s')
  | String "+"%char s' => parse_unsigned s'
  | s' => parse_unsigned s'
  end.

Definition digit_char (d : Z) : ascii := ascii_of_nat (48 + Z.to_nat d).

Fixpoint digits_of (fuel : nat) (n : Z) (acc : string) : string :=
  match fuel with
  | O => acc
  | S fuel' =>
      let acc' := String (digit_char (n mod 10)) acc in
      if (n <? 10)%Z then acc' else digits_of fuel' (n / 10) acc'
  end.

Definition show_nat (n : Z) : string :=
  digits_of (S (Z.to_nat (Z.log2 n))) n EmptyString.

(** Two decimals. *)
Definition show (v : number) : string :=
  match v with
  | Fin a =>
      let n := Qfloor (Qabs a * 100 + (1 # 2)) in
      ((if Qle_bool 0 a then "" else "-") ++
       show_nat (n / 100) ++ "." ++
       String (digit_char ((n / 10) mod 10))
              (String (digit_char (n mod 10)) EmptyString))%string
  | PosInf => "Infinity"%string
  | NegInf => "-Infinity"%string
  | NaN => "NaN"%string
  end.

#[export] Instance runtime : JsRuntime := {|
  Math_PI := Fin pi;
  Math_sin := on_finite sin;
  Math_cos := on_finite cos;
  Math_asin := on_finite asin;
  Math_acos := on_finite acos;
  numberToString := show;
  parseFloat := parse_float
|}.

Definition point (az ht : Q) : HorizonPoint :=
  {| azimuth := Fin az; height := Fin ht |}.

(** Three samples, out of order and in ascending order. *)
Definition samples_unordered : list HorizonPoint :=
  [point 10 5; point (-20) 7; point 0 3].

Definition samples_sorted : list HorizonPoint :=
  [point (-20) 7; point 0 3; point 10 5].

(** A reply of the horizon service: two header rows, then the table. *)
Definition reply : string :=
  ("Latitude 41.42" ++ String Text.LF "A H_hor" ++
   String Text.LF "-20 7.5" ++
   String Text.CR (String Text.LF "0   3") ++
   String Text.LF "n/a 1" ++
   String Text.LF "10 5" ++ String Text.LF "")%string.

End SmallRuntime.

(* ================================================================== *)
(** ** More of [Math] *)
(* ================================================================== *)

Module JsMath.

(** [Math.abs(x)] *)
Definition Math_abs (v : number) : number :=
  match v with
  | Fin a => Fin (Qabs a)
  | NegInf => PosInf
  | _ => v
  end.

(** [Math.max(...l)]: [-Infinity] without arguments, [NaN] as soon as one
    argument is. *)
Definition Math_max_all (l : list number) : number :=
  fold_left Math_max l NegInf.

(** The operand of [||] counts as false: [NaN] or a zero. *)
Definition falsy (v : number) : bool :=
  match v with
  | NaN => true
  | Fin a => Qeq_bool a 0
  | _ => false
  end.

(** [x || 0] *)
Definition or_zero (v : number) : number :=
  if falsy v then Fin 0 else v.

End JsMath.
Export JsMath.

(* ================================================================== *)
(** ** The dashboard ([App]): table rows and handlers *)
(* ================================================================== *)

Module Dashboard.

(** [row.cumulativeRevenue >= assumptions.stationCost], the test that
    colours the revenue cells of a table row. *)
Definition isAfterPayback (a : ProjectAssumptions) (row : YearProjection)
  : bool :=
  nge (cumulativeRevenue row) (Fin (stationCost a)).

(** [!showFullDataset && index >= 10] *)
Definition isHiddenOnWeb (showFullDataset : bool) (index : nat) : bool :=
  negb showFullDataset && (10 <=? index)%nat.

(** [setAssumptions(prev => ({ ...prev, annualYieldYear1: newYield }))] *)
Definition handleApplyYield (newYield : Q) (prev : ProjectAssumptions)
  : ProjectAssumptions :=
  {| stationCost := stationCost prev;
     systemCapacity := systemCapacity prev;
     annualYieldYear1 := newYield;
     usdSomExchange := usdSomExchange prev;
     panelDegradation := panelDegradation prev;
     inflationRate := inflationRate prev;
     baseTariff := baseTariff prev;
     projectLifetime := projectLifetime prev;
     managerName := managerName prev;
     managerRole := managerRole prev;
     projectLocation := projectLocation prev;
     customerName := customerName prev |}.

(** A scenario whose yearly revenue, 3 / 10, is stored as 0. *)
Definition small_revenue_scenario : ProjectAssumptions := {|
  stationCost := 0.5;
  systemCapacity := 1;
  annualYieldYear1 := 3;
  usdSomExchange := 10;
  panelDegradation := 0;
  inflationRate := 0;
  baseTariff := 1;
  projectLifetime := 3;
  managerName := "";
  managerRole := "";
  projectLocation := "";
  customerName := ""
|}.

End Dashboard.

(* ================================================================== *)
(** ** Project database ([services/storageService.ts]) *)
(* ================================================================== *)

Record MonthlyData : Type := {
  month : string;
  energy : number
}.

Module Storage.

Record TechnicalResults : Type := {
  monthlyData : option (list MonthlyData);
  totalAnnual : number
}.

Record SavedProject : Type := {
  id : string;
  timestamp : Z;
  name : string;
  assumptions : ProjectAssumptions;
  technicalResults : TechnicalResults
}.

(** [Omit<SavedProject, 'id' | 'timestamp'>] *)
Record Draft : Type := {
  draft_name : string;
  draft_assumptions : ProjectAssumptions;
  draft_technicalResults : TechnicalResults
}.

(** What [localStorage] holds under [STORAGE_KEY]: nothing, text that
    [JSON.parse] rejects, or the list a previous [setItem] wrote.  The
    records hold strings and finite numbers, which [JSON.stringify] and
    [JSON.parse] carry over unchanged, so the list itself stands for its
    text.  Text that parses to something other than a list of projects is
    outside the model. *)
Inductive Item : Type :=
| Absent
| Unreadable
| Stored (projects : list SavedProject).

(** [getItem] gives [null] when the key is absent and [JSON.parse] throws
    on unreadable text; both end in the empty list. *)
Definition getAllProjects (ls : Item) : list SavedProject :=
  match ls with
  | Stored projects => projects
  | Absent | Unreadable => []
  end.

(** [saveProject]: [newId] stands for the text drawn from [Math.random()]
    and [now] for [Date.now()]. *)
Definition saveProject (ls : Item) (project : Draft) (newId : string) (now : Z)
  : Item * SavedProject :=
  let projects := getAllProjects ls in
  let newProject :=
    {| id := newId;
       timestamp := now;
       name := draft_name project;
       assumptions := draft_assumptions project;
       technicalResults := draft_technicalResults project |} in
  (Stored (newProject :: projects), newProject).

Definition deleteProject (ls : Item) (target : string) : Item :=
  let projects := getAllProjects ls in
  let filtered := filter (fun p => negb (String.eqb (id p) target)) projects in
  Stored filtered.

End Storage.

(** *** The handlers of [App] that use the database *)

Module AppDatabase.

Import Storage.

Section Handlers.

Context {rt : JsRuntime}.

(** The cells of [App] that the handlers touch, with the browser storage
    they read and write. *)
Record State : Type := {
  activeTab : string;
  assumptions : ProjectAssumptions;
  savedProjects : list SavedProject;
  localStorage : Item
}.

(** The component after its mount effect has run. *)
Definition mounted (ls : Item) : State :=
  {| activeTab := "dashboard";
     assumptions := DEFAULT_ASSUMPTIONS;
     savedProjects := getAllProjects ls;
     localStorage := ls |}.

Definition draft_of (a : ProjectAssumptions) : Draft :=
  {| draft_name :=
       (customerName a ++ " - " ++
        numberToString (Fin (systemCapacity a)) ++ "kW")%string;
     draft_assumptions := a;
     draft_technicalResults :=
       {| monthlyData := Some [];
          totalAnnual := Fin (annualYieldYear1 a) |} |}.

Definition handleSaveToDatabase (s : State) (newId : string) (now : Z)
  : State :=
  let ls := fst (saveProject (localStorage s) (draft_of (assumptions s))
                             newId now) in
  {| activeTab := activeTab s;
     assumptions := assumptions s;
     savedProjects := getAllProjects ls;
     localStorage := ls |}.

Definition handleLoadProject (s : State) (project : SavedProject) : State :=
  {| activeTab := "dashboard";
     assumptions := Storage.assumptions project;
     savedProjects := savedProjects s;
     localStorage := localStorage s |}.

Definition handleDeleteProject (s : State) (target : string) : State :=
  let ls := deleteProject (localStorage s) target in
  {| activeTab := activeTab s;
     assumptions := assumptions s;
     savedProjects := getAllProjects ls;
     localStorage := ls |}.

Inductive Event : Type :=
| SaveToDatabase (newId : string) (now : Z)
| LoadProject (project : SavedProject)
| DeleteProject (target : string)
| SetAssumptions (a : ProjectAssumptions)
| ApplyYield (newYield : Q)
| SetActiveTab (tab : string).

Definition step (s : State) (e : Event) : State :=
  match e with
  | SaveToDatabase newId now => handleSaveToDatabase s newId now
  | LoadProject project => handleLoadProject s project
  | DeleteProject target => handleDeleteProject s target
  | SetAssumptions a =>
      {| activeTab := activeTab s;
         assumptions := a;
         savedProjects := savedProjects s;
         localStorage := localStorage s |}
  | ApplyYield newYield =>
      {| activeTab := activeTab s;
         assumptions := Dashboard.handleApplyYield newYield (assumptions s);
         savedProjects := savedProjects s;
         localStorage := localStorage s |}
  | SetActiveTab tab =>
      {| activeTab := tab;
         assumptions := assumptions s;
         savedProjects := savedProjects s;
         localStorage := localStorage s |}
  end.

Definition run (ls : Item) (events : list Event) : State :=
  fold_left step events (mounted ls).

End Handlers.

End AppDatabase.

(* ================================================================== *)
(** ** Cash-flow bars ([CashFlowProjection] and [PdfPreview]) *)
(* ================================================================== *)

Module CashFlow.

Section Component.

(** The props of [CashFlowProjection]. *)
Variable projections : list YearProjection.
Variable stationCost : number.

(** [projections.slice(0, 10)] *)
Definition displayData : list YearProjection := firstn 10 projections.

Definition maxCumulative : number :=
  Math_max_all (map cumulativeRevenue displayData).

Definition maxNet : number := nsub maxCumulative stationCost.

Definition maxAbsValue : number := Math_max stationCost maxNet.

Definition getNetValue (cumulative : number) : number :=
  nsub cumulative stationCost.

Definition isPositive (d : YearProjection) : bool :=
  nge (getNetValue (cumulativeRevenue d)) (Fin 0).

Definition barHeightPercent (d : YearProjection) : number :=
  nmul (ndiv (Math_abs (getNetValue (cumulativeRevenue d))) maxAbsValue)
       (Fin 100).

End Component.

End CashFlow.

Module Report.

Section Component.

(** The props of [PdfPreview] that the charts use. *)
Variable assumptions : ProjectAssumptions.
Variable projections : list YearProjection.

Definition projections10Y : list YearProjection := firstn 10 projections.

Definition netValue (d : YearProjection) : number :=
  nsub (cumulativeRevenue d) (Fin (stationCost assumptions)).

Definition maxAbsVal : number :=
  Math_max_all
    (Fin (stationCost assumptions)
     :: map (fun p => Math_abs (netValue p)) projections10Y).

Definition cashBarHeight (d : YearProjection) : number :=
  nmul (ndiv (Math_abs (netValue d)) maxAbsVal) (Fin 92).

(** The share of the annual yield shown for each month. *)
Definition monthlyYieldData : list (string * Q) :=
  [ ("Jan", 0.04); ("Feb", 0.05); ("Mar", 0.08);
    ("Apr", 0.10); ("May", 0.12); ("Jun", 0.14);
    ("Jul", 0.15); ("Aug", 0.13); ("Sep", 0.10);
    ("Oct", 0.06); ("Nov", 0.04); ("Dec", 0.03) ]%string.

Definition maxMonthYield : number :=
  nmul (Fin (annualYieldYear1 assumptions)) (Fin 0.15).

Definition yieldValue (d : string * Q) : number :=
  nmul (Fin (annualYieldYear1 assumptions)) (Fin (snd d)).

Definition monthBarHeight (d : string * Q) : number :=
  nmul (ndiv (yieldValue d) maxMonthYield) (Fin 88).

End Component.

(** [s.replace(/\s+/g, '_')]: every run of white space becomes one
    underscore; [in_run] tells that the previous character was white
    space. *)
Fixpoint underscore_from (in_run : bool) (s : string) : string :=
  match s with
  | EmptyString => EmptyString
  | String c s' =>
      if Text.is_space c then
        if in_run then underscore_from true s'
        else String "_"%char (underscore_from true s')
      else String c (underscore_from false s')
  end.

Definition underscore_spaces (s : string) : string := underscore_from false s.

(** The file names of the two exports. *)
Definition proposal_filename (a : ProjectAssumptions) : string :=
  ("Financial_Proposal_" ++ underscore_spaces (customerName a) ++ ".pdf")%string.

Definition assessment_filename (customerName : string) : string :=
  ("Solar_Assessment_" ++ underscore_spaces customerName ++ ".pdf")%string.

(** No character of the text is white space. *)
Fixpoint no_space (s : string) : bool :=
  match s with
  | EmptyString => true
  | String c s' => negb (Text.is_space c) && no_space s'
  end.

End Report.

(* ================================================================== *)
(** ** Monthly yield ([PvPerformance] and [TechnicalPdfPreview]) *)
(* ================================================================== *)

Module Performance.

(** The yield the component starts with. *)
Definition initial_results : list MonthlyData :=
  [ {| month := "JAN"; energy := Fin 3840 |};
    {| month := "FEB"; energy := Fin 4920 |};
    {| month := "MAR"; energy := Fin 7100 |};
    {| month := "APR"; energy := Fin 8200 |};
    {| month := "MAY"; energy := Fin 9400 |};
    {| month := "JUN"; energy := Fin 10200 |};
    {| month := "JUL"; energy := Fin 9800 |};
    {| month := "AUG"; energy := Fin 8900 |};
    {| month := "SEP"; energy := Fin 7600 |};
    {| month := "OCT"; energy := Fin 6200 |};
    {| month := "NOV"; energy := Fin 4900 |};
    {| month := "DEC"; energy := Fin 4252 |} ]%string.

(** [useMemo] of [maxMonthEnergy]. *)
Definition maxMonthEnergy (results : option (list MonthlyData)) : number :=
  match results with
  | None | Some [] => Fin 1000
  | Some rs =>
      let maxVal := Math_max_all (map energy rs) in
      if ngt maxVal (Fin 0) then maxVal else Fin 1000
  end.

(** The height of the bar of one month, in percent. *)
Definition barHeight (results : option (list MonthlyData)) (r : MonthlyData)
  : number :=
  match results with
  | Some _ =>
      Math_min (Fin 100)
        (Math_max (Fin 0)
           (nmul (ndiv (energy r) (maxMonthEnergy results)) (Fin 100)))
  | None => Fin 0
  end.

Definition descending (a b : MonthlyData) : number :=
  nsub (energy b) (energy a).

Definition ascending (a b : MonthlyData) : number :=
  nsub (energy a) (energy b).

Record Summary : Type := {
  peak : option MonthlyData;
  min : option MonthlyData;
  avg : number;
  specificYield : number;
  systemSizeKWp : number
}.

(** [useMemo] of [summaryData]; [None] is [null]. *)
Definition summaryData (results : option (list MonthlyData))
  (totalAnnual numPanels panelWattage : number) : option Summary :=
  match results with
  | None | Some [] => None
  | Some rs =>
      let peak := hd_error (Horizon.array_sort descending rs) in
      let min := hd_error (Horizon.array_sort ascending rs) in
      let avg :=
        ndiv (fold_left (fun acc curr => nadd acc (energy curr)) rs (Fin 0))
             (Fin (inject_Z (Z.of_nat (List.length rs)))) in
      let systemSizeKWp := ndiv (nmul numPanels panelWattage) (Fin 1000) in
      let specificYield :=
        if ngt systemSizeKWp (Fin 0) then ndiv totalAnnual systemSizeKWp
        else Fin 0 in
      Some {| peak := peak;
              min := min;
              avg := avg;
              specificYield := specificYield;
              systemSizeKWp := systemSizeKWp |}
  end.

(** [TechnicalPdfPreview]: the scale of its bars, without the guard. *)
Definition maxEnergy (results : option (list MonthlyData)) : number :=
  match results with
  | Some rs => Math_max_all (map energy rs)
  | None => Fin 1000
  end.

Definition reportBarHeight (results : option (list MonthlyData))
  (d : MonthlyData) : number :=
  nmul (ndiv (energy d) (maxEnergy results)) (Fin 90).

Definition reportSpecificYield (capacity totalAnnual : number) : number :=
  if ngt capacity (Fin 0) then ndiv totalAnnual capacity else Fin 0.

(** The energy of a month as a rational, 0 when it is not finite. *)
Definition energy_value (r : MonthlyData) : Q :=
  match energy r with
  | Fin e => e
  | _ => 0
  end.

(** Every month of the list has a finite energy. *)
Definition finite_energies (rs : list MonthlyData) : Prop :=
  Forall (fun r => isFinite (energy r) = true) rs.

End Performance.

(** *** The silhouette of the report ([HorizonVisual]) *)

Module Visual.

Section Component.

Context {rt : JsRuntime}.

Definition dummy_point (a : Z) : HorizonPoint :=
  let a := Fin (inject_Z a) in
  {| azimuth := a;
     height :=
       nadd (Fin 5)
            (nmul (Math_sin (ndiv (nmul a Math_PI) (Fin 45))) (Fin 3)) |}.

Definition dummy : list HorizonPoint :=
  map dummy_point Horizon.dummy_azimuths.

Definition effectiveHorizon (horizon : option (list HorizonPoint))
  : list HorizonPoint :=
  match horizon with
  | None | Some [] => dummy
  | Some h => Horizon.array_sort Horizon.by_azimuth h
  end.

(** The same path construction as in [HorizonChart]. *)
Definition horizonPath (horizon : option (list HorizonPoint))
  : option string :=
  Horizon.horizonPath_of (effectiveHorizon horizon).

End Component.

End Visual.

(** *** Order of the saved projects *)

Module StorageOrder.

Import Storage.

(** The list is in the order of the time stamps, the newest first. *)
Definition newest_first (l : list SavedProject) : Prop :=
  StronglySorted (fun p q => (timestamp q <= timestamp p)%Z) l.

(** The clock has not gone back since the projects of the list were
    saved. *)
Definition not_before (now : Z) (l : list SavedProject) : Prop :=
  Forall (fun p => (timestamp p <= now)%Z) l.

(** The list shown by the component is the list held in the storage. *)
Definition in_sync (s : AppDatabase.State) : Prop :=
  AppDatabase.savedProjects s =
  getAllProjects (AppDatabase.localStorage s).

End StorageOrder.

(* ================================================================== *)
(** ** Sample data for the components above *)
(* ================================================================== *)

Module Samples.

Import Storage.

(** A project as [handleSaveToDatabase] stores it. *)
Definition saved_default (newId : string) (now : Z) : SavedProject :=
  snd (saveProject Absent
         (AppDatabase.draft_of (rt := SmallRuntime.runtime)
            DEFAULT_ASSUMPTIONS)
         newId now).

(** A yield whose months are all zero. *)
Definition zero_results : list MonthlyData :=
  [ {| month := "JAN"; energy := Fin 0 |};
    {| month := "FEB"; energy := Fin 0 |} ]%string.

(** A profile with a row whose azimuth is [Infinity]. *)
Definition unbounded_profile : list HorizonPoint :=
  [ {| azimuth := Fin 0; height := Fin 5 |};
    {| azimuth := PosInf; height := Fin 1 |} ].

End Samples.

(* ================================================================== *)
(** ** Properties of the financial projection engine *)
(* ================================================================== *)

Module EngineFacts.

Import Engine.

Lemma run_loop_S a n : run_loop a (S n) = loop_body a (run_loop a n) n.
Proof.
  unfold run_loop. rewrite seq_S, fold_left_app. reflexivity.
Qed.

Lemma crossed_before_S a n :
  crossed_before a (S n) = crossed_before a n || crossed a n.
Proof.
  unfold crossed_before. rewrite seq_S, existsb_app. simpl.
  now rewrite orb_false_r.
Qed.

(** The loop invariant: after [n] passes the array holds the entries of
    the years below [n], the accumulator is the unrounded sum of their
    revenues, and the latch tells whether one of them reached break-even. *)
Lemma run_loop_inv a n :
  data (run_loop a n) = map (entry a) (seq 0 n) /\
  currentCumulative (run_loop a n) = cumulative_upto a n /\
  breakEvenYearFound (run_loop a n) = crossed_before a n.
Proof.
  induction n as [|n (Hd & Hc & Hb)].
  - repeat split.
  - rewrite run_loop_S. unfold loop_body. cbn [data currentCumulative breakEvenYearFound].
    rewrite Hd, Hc, Hb. repeat split.
    + rewrite seq_S, map_app. reflexivity.
    + rewrite crossed_before_S. unfold crossed, cumulative_at. cbn [cumulative_upto].
      unfold revenue_at, yield_at, tariff_at.
      destruct (crossed_before a n); reflexivity.
Qed.

Lemma projections_entries a :
  projections a = map (entry a) (seq 0 (iterations a)).
Proof. unfold projections. apply run_loop_inv. Qed.

Lemma projections_length a : List.length (projections a) = iterations a.
Proof. now rewrite projections_entries, length_map, length_seq. Qed.

Lemma projections_nth a i :
  (i < iterations a)%nat -> nth_error (projections a) i = Some (entry a i).
Proof.
  intros Hi. rewrite projections_entries.
  rewrite nth_error_map, nth_error_seq.
  destruct (Nat.ltb_spec i (iterations a)); [reflexivity | lia].
Qed.

Lemma projections_nth_inv a i p :
  nth_error (projections a) i = Some p ->
  (i < iterations a)%nat /\ p = entry a i.
Proof.
  intros H.
  assert (Hi : (i < iterations a)%nat).
  { rewrite <- projections_length. apply nth_error_Some. congruence. }
  split; [exact Hi|]. rewrite (projections_nth _ Hi) in H. congruence.
Qed.

(** The loop runs for exactly the counters below the lifetime. *)
Lemma iterations_spec a i :
  (i < iterations a)%nat <-> (inject_Z (Z.of_nat i) < projectLifetime a)%Q.
Proof.
  unfold iterations. set (L := projectLifetime a).
  split; intros H.
  - assert (Hz : (Z.of_nat i <= Qceiling L - 1)%Z) by lia.
    apply Qle_lt_trans with (inject_Z (Qceiling L - 1)).
    + now rewrite <- Zle_Qle.
    + apply Qceiling_lt.
  - assert (Hz : (Z.of_nat i < Qceiling L)%Z).
    { rewrite Zlt_Qlt. eapply Qlt_le_trans; [exact H | apply Qle_ceiling]. }
    lia.
Qed.

(** *** The emitted entries *)

(** C1.  For every year index below the project lifetime the engine emits
    an entry for calendar year 2026 + i whose tariff is the escalated tariff
    [baseTariff * (1 + inflationRate)^i] rounded to two decimals and whose
    yield, revenue and cumulative revenue are the degraded yield
    [annualYieldYear1 * (1 - panelDegradation)^i], the revenue
    [(yield_i * tariff_i) / usdSomExchange] and the running sum, each
    rounded to a whole unit.  The running sum starts at 0 and adds the
    unrounded revenue of each year; it is the value the loop keeps in its
    accumulator, so no rounded value enters the sum. *)
Theorem projections_year_values a i :
  (inject_Z (Z.of_nat i) < projectLifetime a)%Q ->
  exists p,
    nth_error (projections a) i = Some p /\
    year p = (2026 + Z.of_nat i)%Z /\
    tariff p = toFixed 2 (tariff_at a i) /\
    yield p = Math_round (yield_at a i) /\
    revenue p = Math_round (revenue_at a i) /\
    cumulativeRevenue p = Math_round (cumulative_at a i) /\
    yield_at a i =
      nmul (Fin (annualYieldYear1 a))
           (Math_pow (nsub (Fin 1) (Fin (panelDegradation a))) i) /\
    tariff_at a i =
      nmul (Fin (baseTariff a))
           (Math_pow (nadd (Fin 1) (Fin (inflationRate a))) i) /\
    revenue_at a i =
      ndiv (nmul (yield_at a i) (tariff_at a i)) (Fin (usdSomExchange a)) /\
    cumulative_at a i = nadd (cumulative_upto a i) (revenue_at a i) /\
    cumulative_upto a 0 = Fin 0 /\
    cumulative_upto a (S i) = cumulative_at a i /\
    currentCumulative (run_loop a (S i)) = cumulative_at a i.
Proof.
  intros Hi. apply iterations_spec in Hi.
  exists (entry a i). split; [now apply projections_nth|].
  repeat split. apply run_loop_inv.
Qed.

Lemma projections_year_values_default :
  (inject_Z (Z.of_nat 3) < projectLifetime DEFAULT_ASSUMPTIONS)%Q /\
  exists p,
    nth_error (projections DEFAULT_ASSUMPTIONS) 3 = Some p /\
    year p = 2029%Z /\ tariff p = Fin (137 # 25) /\ yield p = Fin 1655383.
Proof.
  split; [reflexivity|].
  destruct (@projections_year_values DEFAULT_ASSUMPTIONS 3 eq_refl)
    as (p & Hn & Hy & Ht & Hyi & _).
  exists p. split; [exact Hn|]. split; [exact Hy|].
  split; [rewrite Ht | rewrite Hyi]; vm_compute; reflexivity.
Defined.

(** In the half-unit scenario every revenue is stored as 100, and the
    stored cumulative revenues are 100, 199 and 299: the sums of 99.5,
    rounded, and not the sums of the rounded revenues. *)
Lemma half_unit_cumulative :
  map revenue (projections half_unit_scenario) = [Fin 100; Fin 100; Fin 100] /\
  map cumulativeRevenue (projections half_unit_scenario) =
    [Fin 100; Fin 199; Fin 299].
Proof. split; vm_compute; reflexivity. Qed.

(** *** Break-even *)

Lemma crossed_before_false a i :
  crossed_before a i = false <->
  forall j, (j < i)%nat -> crossed a j = false.
Proof.
  unfold crossed_before. split.
  - intros H j Hj.
    destruct (crossed a j) eqn:E; [|reflexivity].
    assert (existsb (crossed a) (seq 0 i) = true); [|congruence].
    apply existsb_exists. exists j. split; [apply in_seq; lia | exact E].
  - intros H. destruct (existsb (crossed a) (seq 0 i)) eqn:E; [|reflexivity].
    apply existsb_exists in E. destruct E as (j & Hj & Hc).
    apply in_seq in Hj. rewrite H in Hc by lia. discriminate.
Qed.

Lemma entry_flag a i :
  isBreakEven (entry a i) = true <->
  crossed a i = true /\ forall j, (j < i)%nat -> crossed a j = false.
Proof.
  cbn [entry isBreakEven]. rewrite andb_true_iff, negb_true_iff.
  rewrite crossed_before_false. tauto.
Qed.

Lemma filter_none (A : Type) (f : A -> bool) (l : list A) :
  (forall v, In v l -> f v = false) -> filter f l = [].
Proof.
  induction l as [|v l IH]; intros H; [reflexivity|].
  cbn [filter]. rewrite (H v) by now left.
  apply IH. intros w Hw. apply H. now right.
Qed.

Lemma filter_seq_at_most_one (f : nat -> bool) s n :
  (forall i j, (i < j)%nat -> f i = true -> f j = true -> False) ->
  (List.length (filter f (seq s n)) <= 1)%nat.
Proof.
  intros H. induction n as [|n IH]; [cbn; lia|].
  rewrite seq_S, filter_app, length_app. cbn [filter].
  destruct (f (s + n)%nat) eqn:E; cbn [List.length]; [|lia].
  rewrite filter_none; [cbn; lia|].
  intros v Hv. apply in_seq in Hv.
  destruct (f v) eqn:Ev; [|reflexivity].
  exfalso. apply (H v (s + n)%nat); [lia | exact Ev | exact E].
Qed.

(** C2, as the code has it.  At most one entry of the sequence is marked
    [isBreakEven], and the entry of year index [i] is marked exactly when
    the running sum at full precision, [cumulative_i], is at least the
    station cost for the first time at [i].  The test is made on the
    accumulator of the loop and not on the rounded [cumulativeRevenue]
    that the entry stores. *)
Theorem break_even_marks_first_crossing a :
  (List.length (filter isBreakEven (projections a)) <= 1)%nat /\
  (forall i p,
      nth_error (projections a) i = Some p ->
      (isBreakEven p = true <->
       nge (cumulative_at a i) (Fin (stationCost a)) = true /\
       forall j, (j < i)%nat ->
                 nge (cumulative_at a j) (Fin (stationCost a)) = false)).
Proof.
  split.
  - rewrite projections_entries, filter_map_swap, length_map.
    apply filter_seq_at_most_one. intros i j Hij Hi Hj.
    apply entry_flag in Hi, Hj. destruct Hi as [Hi _], Hj as [_ Hj].
    rewrite (Hj i Hij) in Hi. discriminate.
  - intros i p Hp. apply projections_nth_inv in Hp. destruct Hp as [_ ->].
    apply entry_flag.
Qed.

(** C2, counterexample to the reading on the stored field.  With a yearly
    revenue of 99.5 and a station cost of 100 the first entry stores a
    [cumulativeRevenue] of 100, which is at least the station cost, and
    is not marked; the second entry is. *)
Lemma break_even_not_on_rounded_field :
  exists p0 p1,
    nth_error (projections half_unit_scenario) 0 = Some p0 /\
    nth_error (projections half_unit_scenario) 1 = Some p1 /\
    cumulativeRevenue p0 = Fin 100 /\
    nge (cumulativeRevenue p0) (Fin (stationCost half_unit_scenario)) = true /\
    isBreakEven p0 = false /\
    isBreakEven p1 = true.
Proof.
  eexists; eexists. repeat split; vm_compute; reflexivity.
Qed.

(** *** Payback period *)

Lemma find_indexed_entries a m : forall s,
  crossed_before a s = false ->
  find_indexed (map (entry a) (seq s m)) s =
  option_map (fun i => (i, entry a i)) (find (crossed a) (seq s m)).
Proof.
  induction m as [|m IH]; intros s Hs; [reflexivity|].
  cbn [seq map find_indexed find entry isBreakEven].
  rewrite Hs. cbn [negb andb].
  destruct (crossed a s) eqn:E; [reflexivity|].
  apply IH. rewrite crossed_before_S, Hs, E. reflexivity.
Qed.

Lemma break_even_index_bound a idx :
  break_even_index a = Some idx -> (idx < iterations a)%nat.
Proof.
  unfold break_even_index. intros H. apply find_some in H.
  destruct H as [H _]. apply in_seq in H. lia.
Qed.

Lemma find_seq_first (f : nat -> bool) : forall n s i,
  find f (seq s n) = Some i <->
  (s <= i < s + n)%nat /\ f i = true /\
  forall j, (s <= j < i)%nat -> f j = false.
Proof.
  induction n as [|n IH]; intros s i; cbn [seq find].
  - split; [discriminate | lia].
  - destruct (f s) eqn:E.
    + split.
      * intros [= <-]. repeat split; try lia. exact E.
      * intros (Hr & Hf & Hb).
        destruct (Nat.eq_dec s i) as [->|Hne]; [reflexivity|].
        rewrite (Hb s) in E by lia. discriminate.
    + rewrite IH. split; intros (Hr & Hf & Hb).
      * repeat split; try lia; [exact Hf|]. intros j Hj.
        destruct (Nat.eq_dec j s) as [->|Hne]; [exact E | apply Hb; lia].
      * assert (s <> i) by congruence.
        repeat split; try lia; [exact Hf|]. intros j Hj. apply Hb; lia.
Qed.

(** The index found on the unrounded sums is the position of the marked
    entry. *)
Lemma break_even_index_flag a i :
  break_even_index a = Some i <->
  exists p, nth_error (projections a) i = Some p /\ isBreakEven p = true.
Proof.
  unfold break_even_index. rewrite find_seq_first. split.
  - intros (Hr & Hc & Hb). exists (entry a i).
    split; [apply projections_nth; lia|].
    apply entry_flag. split; [exact Hc|]. intros j Hj. apply Hb. lia.
  - intros (p & Hp & Hflag). apply projections_nth_inv in Hp.
    destruct Hp as [Hi ->]. apply entry_flag in Hflag.
    destruct Hflag as [Hc Hb].
    repeat split; try lia; [exact Hc|]. intros j Hj. apply Hb. lia.
Qed.

(** C3, as the code has it.  When no year of the lifetime reaches
    break-even the payback period is the project lifetime; when the first
    year does, it is 1; otherwise it is the index of the break-even year
    (its calendar year minus 2026) plus
    [(stationCost - cumulativeRevenue_{idx-1}) / revenue_idx], where the two
    values are the rounded ones stored in the emitted entries. *)
Theorem paybackPeriod_value a :
  match break_even_index a with
  | None => paybackPeriod a = Ok (Fin (projectLifetime a))
  | Some O => paybackPeriod a = Ok (Fin 1)
  | Some (S k) =>
      exists prev be,
        nth_error (projections a) k = Some prev /\
        nth_error (projections a) (S k) = Some be /\
        cumulativeRevenue prev = Math_round (cumulative_at a k) /\
        revenue be = Math_round (revenue_at a (S k)) /\
        (year be - 2026)%Z = Z.of_nat (S k) /\
        paybackPeriod a =
          Ok (nadd (Fin (inject_Z (Z.of_nat (S k))))
                   (ndiv (nsub (Fin (stationCost a)) (cumulativeRevenue prev))
                         (revenue be)))
  end.
Proof.
  assert (Hf : find_indexed (projections a) 0 =
               option_map (fun i => (i, entry a i)) (break_even_index a)).
  { rewrite projections_entries. now apply find_indexed_entries. }
  unfold paybackPeriod. cbv zeta. rewrite Hf.
  destruct (break_even_index a) as [[|k]|] eqn:E; cbn [option_map Nat.eqb];
    try reflexivity.
  apply break_even_index_bound in E.
  exists (entry a k), (entry a (S k)).
  assert (Hk : nth_error (projections a) k = Some (entry a k))
    by (apply projections_nth; lia).
  replace (S k - 1)%nat with k by lia. rewrite Hk.
  repeat split; try assumption.
  - now apply projections_nth.
  - cbn [entry year]. lia.
  - cbn [entry year revenue cumulativeRevenue].
    replace (2026 + Z.of_nat (S k) - 2026)%Z with (Z.of_nat (S k)) by lia.
    reflexivity.
Qed.

(** C3, counterexample.  In the half-unit scenario the break-even index is
    1; the code returns 1 + (100 - 100) / 100 = 1 from the rounded entries,
    the formula on the unrounded values gives 1 + (100 - 99.5) / 99.5. *)
Lemma paybackPeriod_uses_rounded_entries :
  break_even_index half_unit_scenario = Some 1%nat /\
  paybackPeriod half_unit_scenario = Ok (Fin 1) /\
  spec_payback half_unit_scenario 1 = Fin (200 # 199) /\
  paybackPeriod half_unit_scenario <> Ok (spec_payback half_unit_scenario 1).
Proof.
  repeat split; try (vm_compute; reflexivity).
  vm_compute. discriminate.
Qed.

(** *** Degenerate assumptions *)

Lemma iterations_nonpositive a :
  (projectLifetime a <= 0)%Q -> iterations a = 0%nat.
Proof.
  intros H. unfold iterations.
  assert (Hc : (Qceiling (projectLifetime a) <= 0)%Z).
  { rewrite <- (Qceiling_Z 0). now apply Qceiling_resp_le. }
  lia.
Qed.

(** With a lifetime of zero or less the sequence is empty, the payback
    period is the lifetime itself, and the ROI summary throws. *)
Lemma empty_lifetime a :
  (projectLifetime a <= 0)%Q ->
  projections a = [] /\
  paybackPeriod a = Ok (Fin (projectLifetime a)) /\
  totalRoi a = Throw TypeError.
Proof.
  intros H. apply iterations_nonpositive in H.
  assert (Hp : projections a = [])
    by (rewrite projections_entries, H; reflexivity).
  unfold paybackPeriod, totalRoi. rewrite Hp. repeat split.
Qed.

(** C4, the code at the two inputs the claim names.  After the lifetime
    field is cleared (the form stores 0) the sequence is empty, the payback
    period is 0 and [totalRoi] throws a [TypeError]; after the station cost
    is cleared the division of [totalRoi] is carried out and yields
    [Infinity]. *)
Theorem totalRoi_unguarded :
  projections (set_projectLifetime 0 DEFAULT_ASSUMPTIONS) = [] /\
  paybackPeriod (set_projectLifetime 0 DEFAULT_ASSUMPTIONS) = Ok (Fin 0) /\
  totalRoi (set_projectLifetime 0 DEFAULT_ASSUMPTIONS) = Throw TypeError /\
  totalRoi (set_stationCost 0 DEFAULT_ASSUMPTIONS) = Ok PosInf /\
  totalRoi DEFAULT_ASSUMPTIONS = Ok (Fin (1249932 # 1735)).
Proof.
  repeat split; vm_compute; reflexivity.
Qed.

(** *** The default scenario *)

(** C5, with the figures the code produces.  In the default scenario the
    revenue of year index 0 is (1683000 * 4.47) / 87.5, it is emitted as
    85977 and so is the cumulative revenue of that year; break-even is
    marked at year index 6 (2032), the first year whose cumulative revenue
    exceeds 694000. *)
Theorem default_scenario_figures :
  revenue_at DEFAULT_ASSUMPTIONS 0 =
    ndiv (nmul (Fin 1683000) (Fin 4.47)) (Fin 87.5) /\
  option_map revenue (nth_error (projections DEFAULT_ASSUMPTIONS) 0) =
    Some (Fin 85977) /\
  option_map cumulativeRevenue (nth_error (projections DEFAULT_ASSUMPTIONS) 0) =
    Some (Fin 85977) /\
  map (fun i => ngt (cumulative_at DEFAULT_ASSUMPTIONS i) (Fin 694000))
      (seq 0 7) =
    [false; false; false; false; false; false; true] /\
  break_even_index DEFAULT_ASSUMPTIONS = Some 6%nat /\
  map year (filter isBreakEven (projections DEFAULT_ASSUMPTIONS)) = [2032%Z].
Proof.
  repeat split; vm_compute; reflexivity.
Qed.

(** C5, counterexample: the revenue of year index 0 does not round to
    85919. *)
Lemma default_first_revenue_is_not_85919 :
  Math_round (revenue_at DEFAULT_ASSUMPTIONS 0) <> Fin 85919 /\
  Math_round (cumulative_at DEFAULT_ASSUMPTIONS 0) <> Fin 85919.
Proof.
  split; vm_compute; discriminate.
Qed.

(** *** Monotonicity of the cumulative revenue *)

Lemma nonneg_pow x i : nonneg x -> nonneg (Math_pow x i).
Proof.
  destruct x as [b| | |]; cbn [nonneg]; try contradiction. intros Hb.
  destruct i as [|i]; cbn [Math_pow nonneg]; [discriminate|].
  rewrite Qred_correct. now apply Qpower_0_le.
Qed.

Lemma nonneg_mul x y : nonneg x -> nonneg y -> nonneg (nmul x y).
Proof.
  destruct x, y; cbn [nonneg nmul]; try contradiction. intros Hx Hy.
  rewrite Qred_correct. now apply Qmult_le_0_compat.
Qed.

Lemma nonneg_div x b : nonneg x -> (0 < b)%Q -> nonneg (ndiv x (Fin b)).
Proof.
  destruct x as [c| | |]; cbn [nonneg ndiv]; try contradiction. intros Hx Hb.
  unfold Qsign. rewrite (proj1 (Qgt_alt _ _) Hb). cbn [nonneg].
  rewrite Qred_correct. apply Qle_shift_div_l; [exact Hb|]. lra.
Qed.

Lemma nonneg_add x y : nonneg x -> nonneg y -> nonneg (nadd x y).
Proof.
  destruct x, y; cbn [nonneg nadd]; try contradiction. intros Hx Hy.
  rewrite Qred_correct. lra.
Qed.

Lemma fin_le_add x y : nonneg x -> nonneg y -> fin_le x (nadd x y).
Proof.
  destruct x, y; cbn [nonneg nadd fin_le]; try contradiction. intros Hx Hy.
  rewrite Qred_correct. lra.
Qed.

Lemma fin_le_trans x y z : fin_le x y -> fin_le y z -> fin_le x z.
Proof.
  destruct x, y, z; cbn [fin_le]; try contradiction. intros; lra.
Qed.

Lemma round_monotone x y :
  fin_le x y -> nle (Math_round x) (Math_round y) = true.
Proof.
  destruct x as [c| | |], y as [d| | |]; cbn [fin_le Math_round];
    try contradiction. intros H.
  assert (Hf : (inject_Z (Qfloor (c + (1 # 2))) <=
                inject_Z (Qfloor (d + (1 # 2))))%Q).
  { rewrite <- Zle_Qle. apply Qfloor_resp_le. lra. }
  pose proof (proj1 (Qle_alt _ _) Hf) as Hc.
  unfold nle. cbn [ncompare].
  destruct (_ ?= _)%Q; congruence.
Qed.

Section Domain.

Variable a : ProjectAssumptions.
Hypothesis dom : documented_domain a.

Lemma revenue_nonneg i : nonneg (revenue_at a i).
Proof.
  destruct dom as (Hy & Ht & Hd0 & Hd1 & Hr & Hx).
  unfold revenue_at, yield_at, tariff_at.
  apply nonneg_div; [|exact Hx].
  apply nonneg_mul; apply nonneg_mul; try exact Hy; try exact Ht;
    apply nonneg_pow; cbn [nsub nadd nneg nonneg]; rewrite Qred_correct; lra.
Qed.

Lemma cumulative_nonneg i : nonneg (cumulative_upto a i).
Proof.
  induction i as [|i IH]; cbn [cumulative_upto].
  - cbn [nonneg]. lra.
  - apply nonneg_add; [exact IH | apply revenue_nonneg].
Qed.

Lemma cumulative_step i :
  fin_le (cumulative_upto a i) (cumulative_upto a (S i)).
Proof.
  cbn [cumulative_upto]. apply fin_le_add;
    [apply cumulative_nonneg | apply revenue_nonneg].
Qed.

Lemma cumulative_ascending i j :
  (i < j)%nat -> fin_le (cumulative_upto a i) (cumulative_upto a j).
Proof.
  induction 1 as [|j Hj IH].
  - apply cumulative_step.
  - eapply fin_le_trans; [exact IH | apply cumulative_step].
Qed.

End Domain.


Lemma default_assumptions_in_domain : documented_domain DEFAULT_ASSUMPTIONS.
Proof.
  unfold documented_domain. cbn. repeat split; lra.
Defined.


End EngineFacts.

(* ================================================================== *)
(** ** Properties of the horizon chart *)
(* ================================================================== *)

Module HorizonFacts.

Import Horizon.

Local Open Scope string_scope.
Local Open Scope list_scope.

(** *** Text *)

Lemma append_assoc (s t u : string) :
  ((s ++ t) ++ u = s ++ (t ++ u))%string.
Proof.
  induction s as [|c s IH]; cbn; [reflexivity | now rewrite IH].
Qed.

Lemma append_empty_r (s : string) : (s ++ "" = s)%string.
Proof.
  induction s as [|c s IH]; cbn; [reflexivity | now rewrite IH].
Qed.

(** *** Order of the azimuths *)

(** Turns the outcome of a comparison of rationals into the order fact. *)
Ltac compare_facts H :=
  first [ apply Qeq_alt in H | apply Qlt_alt in H | apply Qgt_alt in H ].

(** The comparator of the sort is positive exactly when its second
    argument has the smaller azimuth. *)
Lemma comparator_positive a b : ngt (nsub a b) (Fin 0) = nlt b a.
Proof.
  destruct a as [p| | |], b as [q| | |]; try reflexivity.
  unfold nsub, nneg, nadd, ngt, nlt, ncompare.
  destruct (Qred (p + - q) ?= 0)%Q eqn:E1, (q ?= p)%Q eqn:E2;
    try reflexivity; exfalso; compare_facts E1; compare_facts E2;
    rewrite Qred_correct in E1; lra.
Qed.

Lemma nlt_asym a b : nlt a b = true -> nlt b a = false.
Proof.
  destruct a as [p| | |], b as [q| | |]; cbn; try congruence.
  unfold nlt, ncompare. rewrite <- (Qcompare_antisym p q).
  destruct (p ?= q)%Q; cbn; congruence.
Qed.

Lemma sort_insert_middle v l1 l2 :
  Forall (fun w => az_lt w v) l1 ->
  Forall (fun w => az_lt v w) l2 ->
  sort_insert by_azimuth v (l1 ++ l2) = l1 ++ v :: l2.
Proof.
  intros H1 H2. induction H1 as [|w l1 Hw _ IH]; cbn [app].
  - destruct H2 as [|w l2 Hw _]; [reflexivity|].
    cbn [sort_insert]. unfold by_azimuth. rewrite comparator_positive.
    now rewrite (nlt_asym _ _ Hw).
  - cbn [sort_insert]. unfold by_azimuth at 1. rewrite comparator_positive.
    rewrite Hw. now rewrite IH.
Qed.

Lemma StronglySorted_middle (A : Type) (R : A -> A -> Prop) l1 v l2 :
  StronglySorted R (l1 ++ v :: l2) ->
  Forall (fun w => R w v) l1 /\ Forall (R v) l2 /\
  StronglySorted R (l1 ++ l2).
Proof.
  induction l1 as [|w l1 IH]; cbn [app]; intros H.
  - apply StronglySorted_inv in H. destruct H as [Hs Hf]. auto.
  - apply StronglySorted_inv in H. destruct H as [Hs Hf].
    destruct (IH Hs) as (H1 & H2 & H3).
    apply Forall_app in Hf. destruct Hf as [Hf1 Hf2].
    repeat split.
    + constructor; [exact (Forall_inv Hf2) | exact H1].
    + exact H2.
    + constructor; [exact H3|].
      apply Forall_app. split; [exact Hf1 | exact (Forall_inv_tail Hf2)].
Qed.

(** Sorting an arrangement of a strictly ascending profile gives that
    profile. *)
Lemma array_sort_ascending l : forall l',
  Permutation l l' -> StronglySorted az_lt l' ->
  array_sort by_azimuth l = l'.
Proof.
  induction l as [|v l IH]; intros l' Hp Hs.
  - apply Permutation_nil in Hp. now subst.
  - destruct (in_split v l') as (l1 & l2 & ->).
    { apply (Permutation_in _ Hp). now left. }
    apply Permutation_cons_app_inv in Hp.
    apply StronglySorted_middle in Hs. destruct Hs as (H1 & H2 & H3).
    cbn [array_sort]. rewrite (IH _ Hp H3).
    now apply sort_insert_middle.
Qed.

Section Chart.

Context {rt : JsRuntime}.

Lemma effectiveHorizon_ascending l l' :
  Permutation l l' -> StronglySorted az_lt l' ->
  effectiveHorizon (Some l) = effectiveHorizon (Some l').
Proof.
  intros Hp Hs. destruct l as [|v l].
  - apply Permutation_nil in Hp. now subst.
  - destruct l' as [|v' l'].
    + apply Permutation_sym, Permutation_nil in Hp. discriminate.
    + cbn [effectiveHorizon].
      rewrite (array_sort_ascending Hp Hs).
      now rewrite (array_sort_ascending (Permutation_refl _) Hs).
Qed.

(** *** The rim loop stops *)

Lemma floor_unique (v : Q) (z : Z) :
  (inject_Z z <= v)%Q -> (v < inject_Z (z + 1))%Q -> Qfloor v = z.
Proof.
  intros H1 H2.
  pose proof (Qfloor_le v) as F1. pose proof (Qlt_floor v) as F2.
  assert (A : (inject_Z z < inject_Z (Qfloor v + 1))%Q) by lra.
  assert (B : (inject_Z (Qfloor v) < inject_Z (z + 1))%Q) by lra.
  rewrite <- Zlt_Qlt in A, B. lia.
Qed.

Lemma rim_passes_step h l :
  (l <= h)%Q -> rim_passes h l = S (rim_passes (Qred (h + - (5))) l).
Proof.
  intros H. unfold rim_passes.
  set (z := Qfloor ((h - l) / 5)).
  assert (Hz : (0 <= z)%Z).
  { rewrite <- (Qfloor_Z 0). apply Qfloor_resp_le.
    apply Qle_shift_div_l. lra. change (inject_Z 0) with 0%Q. lra. }
  assert (E : Qfloor ((Qred (h + - (5)) - l) / 5) = (z - 1)%Z).
  { pose proof (Qfloor_le ((h - l) / 5)) as F1.
    pose proof (Qlt_floor ((h - l) / 5)) as F2. fold z in F1, F2.
    assert (Q1 : ((Qred (h + - (5)) - l) / 5 == (h - l) / 5 - 1)%Q).
    { rewrite Qred_correct. field. }
    assert (Q2 : (inject_Z (z - 1) == inject_Z z - 1)%Q).
    { unfold Z.sub. rewrite inject_Z_plus, inject_Z_opp. reflexivity. }
    assert (Q3 : (inject_Z (z + 1) == inject_Z z + 1)%Q).
    { rewrite inject_Z_plus. reflexivity. }
    apply floor_unique; rewrite Q1.
    - rewrite Q2. lra.
    - replace (z - 1 + 1)%Z with z by lia. rewrite Q3 in F2. lra. }
  rewrite E. lia.
Qed.

Lemma rim_loop_stops l fuel : forall h d,
  (rim_passes h l < fuel)%nat ->
  exists d', rim_loop fuel (Fin h) (Fin l) d = Some d'.
Proof.
  induction fuel as [|fuel IH]; intros h d Hf; [lia|].
  cbn [rim_loop]. unfold nge. cbn [ncompare].
  destruct (h ?= l)%Q eqn:E.
  - apply Qeq_alt in E. rewrite rim_passes_step in Hf by lra.
    apply IH. lia.
  - eexists; reflexivity.
  - apply Qgt_alt in E. rewrite rim_passes_step in Hf by lra.
    apply IH. lia.
Qed.

Lemma rim_fuel_enough h l :
  (rim_passes h l < rim_fuel (Fin h) (Fin l))%nat.
Proof. unfold rim_passes, rim_fuel. lia. Qed.

Lemma rim_loop_appends fuel : forall a lo d d',
  rim_loop fuel a lo d = Some d' -> exists t, d' = (d ++ t)%string.
Proof.
  induction fuel as [|fuel IH]; intros a lo d d' H; [discriminate|].
  cbn [rim_loop] in H. destruct (nge a lo).
  - apply IH in H. destruct H as [t ->].
    eexists. apply append_assoc.
  - injection H as <-. exists "". now rewrite append_empty_r.
Qed.

Lemma lines_append rest : forall d,
  exists t,
    fold_left (fun d p => (d ++ lineTo p)%string) rest d = (d ++ t)%string.
Proof.
  induction rest as [|p rest IH]; intros d; cbn [fold_left].
  - exists "". now rewrite append_empty_r.
  - destruct (IH (d ++ lineTo p)%string) as [t ->].
    eexists. apply append_assoc.
Qed.

Lemma first_azimuth_finite h :
  h <> [] -> Forall finite_azimuth h ->
  exists q, first_azimuth h = Fin q.
Proof.
  intros Hne Hf. destruct Hf as [|p h Hp _]; [congruence|].
  cbn [first_azimuth]. unfold finite_azimuth in Hp.
  destruct (azimuth p); try discriminate. eexists; reflexivity.
Qed.

Lemma last_azimuth_finite h :
  h <> [] -> Forall finite_azimuth h ->
  exists q, last_azimuth h = Fin q.
Proof.
  intros Hne Hf. unfold last_azimuth. apply first_azimuth_finite.
  - intros E. apply (f_equal (@rev _)) in E. rewrite rev_involutive in E.
    now apply Hne.
  - apply Forall_rev. exact Hf.
Qed.

(** A profile with finite azimuths gives a path, and the path of a
    profile that is not empty is closed: it opens with a move and ends
    with the close command. *)
Lemma horizonPath_of_closed h :
  h <> [] -> Forall finite_azimuth h ->
  exists body, horizonPath_of h = Some ("M " ++ body ++ " Z")%string.
Proof.
  intros Hne Hf.
  destruct (first_azimuth_finite Hne Hf) as [lo Hlo].
  destruct (last_azimuth_finite Hne Hf) as [hi Hhi].
  unfold horizonPath_of. rewrite Hlo, Hhi.
  destruct h as [|p h]; [congruence|]. cbn [map].
  match goal with
  | |- context [fold_left ?f ?rest ?d] =>
      destruct (lines_append rest d) as [t1 ->]
  end.
  match goal with
  | |- context [rim_loop ?fuel ?a ?l ?d] =>
      destruct (@rim_loop_stops lo fuel hi d (rim_fuel_enough hi lo))
        as [d' Hd'];
      rewrite Hd'; destruct (rim_loop_appends _ _ _ _ Hd') as [t2 ->]
  end.
  match goal with
  | |- exists body, Some ((((_ ++ ?r) ++ ?u1) ++ ?u2) ++ _)%string = _ =>
      exists ((r ++ u1) ++ u2)%string
  end.
  now rewrite !append_assoc.
Qed.

Lemma dummy_finite : dummy <> [] /\ Forall finite_azimuth dummy.
Proof.
  split; [discriminate|].
  unfold dummy. apply Forall_map, Forall_forall. intros a _. reflexivity.
Qed.

Lemma counter_values_in from step n a :
  In a (counter_values from step n) <->
  exists k, (k < n)%nat /\ a = (from + step * Z.of_nat k)%Z.
Proof.
  unfold counter_values. rewrite in_map_iff. split.
  - intros (k & <- & Hk). apply in_seq in Hk. exists k. split; [lia|reflexivity].
  - intros (k & Hk & ->). exists k. split; [reflexivity|]. apply in_seq. lia.
Qed.

(** *** Sun path *)

Lemma sun_points_from lat declination hs : forall points,
  fold_left (sun_step lat declination) hs points =
  points ++
  map (fun h => getCoords (sunAzimuth lat declination h)
                          (nmul (altitude lat declination h) rad2deg))
      (filter (fun h => negb (nlt (altitude lat declination h) (Fin 0))) hs).
Proof.
  induction hs as [|h hs IH]; intros points; cbn [fold_left filter].
  - now rewrite app_nil_r.
  - rewrite IH. unfold sun_step.
    destruct (nlt (altitude lat declination h) (Fin 0)); cbn [negb map].
    + reflexivity.
    + now rewrite <- app_assoc.
Qed.

Lemma clamp_range c :
  let m := Math_max (Fin (-1)) (Math_min (Fin 1) c) in
  m = NaN \/ (nle (Fin (-1)) m = true /\ nle m (Fin 1) = true).
Proof.
  destruct c as [q| | |]; cbn zeta; try (left; reflexivity);
    try (right; split; reflexivity).
  right. unfold Math_min. cbn [ncompare].
  destruct (1 ?= q)%Q eqn:E1; try (split; reflexivity).
  unfold Math_max. cbn [ncompare].
  destruct (-1 ?= q)%Q eqn:E2; unfold nle; cbn [ncompare].
  - split; reflexivity.
  - rewrite E2. split; [reflexivity|].
    rewrite <- (Qcompare_antisym 1 q), E1. reflexivity.
  - split; reflexivity.
Qed.



End Chart.


End HorizonFacts.

(* ================================================================== *)
(** ** Properties of the PV-performance view *)
(* ================================================================== *)

Module ViewFacts.

Import Horizon View.

Section Component.

Context {rt : JsRuntime}.

Lemma step_inv s e : state_inv s -> state_inv (step s e).
Proof.
  unfold state_inv. intros H.
  destruct e; cbn [step horizonData isDataReal]; try exact H;
    try (destruct (horizonData s); [exact H | reflexivity]).
  destruct (Nat.ltb_spec 0 (List.length (parseHorizon hText))) as [Hn|Hn];
    cbn [horizonData isDataReal]; [|exact H].
  split; [|now exists hText].
  intros E. rewrite E in Hn. cbn in Hn. lia.
Qed.

Lemma run_from_inv events : forall s,
  state_inv s -> state_inv (fold_left step events s).
Proof.
  induction events as [|e events IH]; intros s Hs; [exact Hs|].
  cbn [fold_left]. apply IH. now apply step_inv.
Qed.

(** Every state the component reaches satisfies the invariant. *)
Lemma run_inv events : state_inv (run events).
Proof. apply run_from_inv. reflexivity. Qed.

Lemma synthetic_not_verified s :
  state_inv s -> shows_synthetic s && isDataReal s = false.
Proof.
  unfold state_inv, shows_synthetic.
  destruct (horizonData s) as [[|p h]|]; cbn [andb].
  - intros [Hne _]. now contradiction Hne.
  - reflexivity.
  - intros ->. reflexivity.
Qed.


(** C10.  In every state of the view the flag [isDataReal] is true only
    when the profile held is a non-empty list that [fetchHorizon] parsed
    from a reply of the horizon service; a marker drag and a map click
    lower the flag; and the chart never shows the verified badge over the
    synthetic profile. *)
Theorem verified_only_with_service_data events :
  (isDataReal (run events) = true ->
   exists hText,
     horizonData (run events) = Some (parseHorizon hText) /\
     parseHorizon hText <> []) /\
  (forall e, location_change e = true ->
             isDataReal (step (run events) e) = false) /\
  shows_synthetic (run events) && isDataReal (run events) = false /\
  (chart_badge (run events) = "Verified: JRC PrintHorizon Data"%string ->
   shows_synthetic (run events) = false).
Proof.
  pose proof (run_inv events) as Hinv.
  pose proof (synthetic_not_verified _ Hinv) as Hnot.
  split; [|split; [|split]].
  - intros Hreal. unfold state_inv in Hinv.
    destruct (horizonData (run events)) as [h|]; [|congruence].
    destruct Hinv as [Hne [hText ->]]. now exists hText.
  - intros e He. destruct e; try discriminate; reflexivity.
  - exact Hnot.
  - unfold chart_badge, badge. intros Hb.
    destruct (isDataReal (run events)); [|discriminate].
    now rewrite andb_true_r in Hnot.
Qed.

End Component.

(** A latitude or longitude typed into the form leaves the flag as it
    is. *)
Lemma typed_location_keeps_flag (rt : JsRuntime) s value :
  isDataReal (step s (LatInput value)) = isDataReal s /\
  isDataReal (step s (LonInput value)) = isDataReal s.
Proof. split; reflexivity. Qed.

(** The invariant on a run with the small runtime: a reply with three
    readable rows raises the flag, a map click lowers it again and keeps
    the profile. *)
Lemma verified_after_reply :
  let run := run (rt := SmallRuntime.runtime) in
  isDataReal (run [FetchStart; HorizonResponse SmallRuntime.reply]) = true /\
  horizonData (run [FetchStart; HorizonResponse SmallRuntime.reply]) =
    Some [SmallRuntime.point (-20) (15 # 2); SmallRuntime.point 0 3;
          SmallRuntime.point 10 5] /\
  isDataReal (run [FetchStart; HorizonResponse SmallRuntime.reply;
                   MapClick (Fin 41) (Fin 75)]) = false.
Proof.
  repeat split; vm_compute; reflexivity.
Qed.

End ViewFacts.

(* ================================================================== *)
(** ** More properties of the financial projection engine *)
(* ================================================================== *)

Module EngineMore.

Import Engine EngineFacts Dashboard.

Lemma ndiv_zero_not_finite v b :
  (b == 0)%Q -> isFinite (ndiv v (Fin b)) = false.
Proof.
  intros Hb. apply Qeq_alt in Hb.
  destruct v as [c| | |]; cbn [ndiv]; unfold Qsign; rewrite ?Hb;
    try reflexivity.
  destruct (c ?= 0)%Q; reflexivity.
Qed.

Lemma nmul_not_finite v w : isFinite v = false -> isFinite (nmul v w) = false.
Proof.
  destruct v as [c| | |], w as [d| | |]; cbn [isFinite nmul];
    try discriminate; try reflexivity; intros _; unfold Qsign;
    destruct (d ?= 0)%Q; reflexivity.
Qed.

Lemma nadd_not_finite v w : isFinite w = false -> isFinite (nadd v w) = false.
Proof.
  destruct v, w; cbn [isFinite nadd]; try discriminate; reflexivity.
Qed.

Lemma floor_half (z : Z) : Qfloor (inject_Z z + (1 # 2)) = z.
Proof.
  apply HorizonFacts.floor_unique.
  - lra.
  - rewrite inject_Z_plus. change (inject_Z 1) with 1%Q. lra.
Qed.

(** The payback period in terms of the first year whose unrounded running
    sum reaches the station cost. *)
Lemma paybackPeriod_formula a :
  paybackPeriod a =
  Ok match break_even_index a with
     | None => Fin (projectLifetime a)
     | Some O => Fin 1
     | Some (S k) =>
         nadd (Fin (inject_Z (Z.of_nat (S k))))
              (ndiv (nsub (Fin (stationCost a))
                          (Math_round (cumulative_at a k)))
                    (Math_round (revenue_at a (S k))))
     end.
Proof.
  assert (Hf : find_indexed (projections a) 0 =
               option_map (fun i => (i, entry a i)) (break_even_index a)).
  { rewrite projections_entries. now apply find_indexed_entries. }
  unfold paybackPeriod. cbv zeta. rewrite Hf.
  destruct (break_even_index a) as [[|k]|] eqn:E; cbn [option_map Nat.eqb];
    try reflexivity.
  apply break_even_index_bound in E.
  replace (S k - 1)%nat with k by lia.
  rewrite (@projections_nth a k) by lia.
  cbn [entry year revenue cumulativeRevenue].
  replace (2026 + Z.of_nat (S k) - 2026)%Z with (Z.of_nat (S k)) by lia.
  reflexivity.
Qed.

(** X1.  The sequence has one entry for each whole number below the
    project lifetime and no other: entry [i] exists exactly when
    [i < projectLifetime], a lifetime of [n] whole years gives [n] entries,
    and the calendar years run 2026, 2027, ... without a gap. *)
Theorem projections_shape a :
  (forall i, (i < List.length (projections a))%nat <->
             (inject_Z (Z.of_nat i) < projectLifetime a)%Q) /\
  (forall n, (projectLifetime a == inject_Z (Z.of_nat n))%Q ->
             List.length (projections a) = n) /\
  map year (projections a) =
    map (fun i => (2026 + Z.of_nat i)%Z)
        (seq 0 (List.length (projections a))).
Proof.
  rewrite projections_length. repeat split.
  - apply iterations_spec.
  - apply iterations_spec.
  - intros n Hn. unfold iterations.
    rewrite (Qceiling_comp _ _ Hn), Qceiling_Z. lia.
  - rewrite projections_entries, map_map. reflexivity.
Qed.

(** X2.  [paybackPeriod] never throws: when a break-even entry is found
    at a position other than 0, the entry before it exists. *)
Theorem paybackPeriod_never_throws a : exists v, paybackPeriod a = Ok v.
Proof. rewrite paybackPeriod_formula. eexists. reflexivity. Qed.

(** X3.  [totalRoi] throws exactly when the project lifetime is zero or
    negative, that is, when the sequence is empty. *)
Theorem totalRoi_throws_iff a :
  totalRoi a = Throw TypeError <-> (projectLifetime a <= 0)%Q.
Proof.
  split; [|apply empty_lifetime].
  intros H. destruct (Qlt_le_dec 0 (projectLifetime a)) as [Hpos|Hle];
    [exfalso | exact Hle].
  assert (Hi : (0 < iterations a)%nat) by now apply iterations_spec.
  unfold totalRoi in H. cbv zeta in H.
  rewrite projections_length in H.
  rewrite (@projections_nth a (iterations a - 1)) in H by lia.
  discriminate.
Qed.

(** X4.  With a positive lifetime and a station cost of zero [totalRoi]
    returns a value that is not a finite number. *)
Theorem totalRoi_zero_cost a :
  (0 < projectLifetime a)%Q -> (stationCost a == 0)%Q ->
  exists v, totalRoi a = Ok v /\ isFinite v = false.
Proof.
  intros Hpos Hz.
  assert (Hi : (0 < iterations a)%nat) by now apply iterations_spec.
  unfold totalRoi. cbv zeta. rewrite projections_length.
  rewrite (@projections_nth a (iterations a - 1)) by lia.
  eexists. split; [reflexivity|].
  apply nmul_not_finite. now apply ndiv_zero_not_finite.
Qed.

Lemma totalRoi_zero_cost_default :
  (0 < projectLifetime (set_stationCost 0 DEFAULT_ASSUMPTIONS))%Q /\
  (stationCost (set_stationCost 0 DEFAULT_ASSUMPTIONS) == 0)%Q /\
  exists v, totalRoi (set_stationCost 0 DEFAULT_ASSUMPTIONS) = Ok v /\
            isFinite v = false.
Proof.
  split; [reflexivity|]. split; [reflexivity|].
  apply (@totalRoi_zero_cost (set_stationCost 0 DEFAULT_ASSUMPTIONS));
    reflexivity.
Defined.

(** X5.  [paybackPeriod] divides by the rounded revenue of the break-even
    year: when that year is not the first and its revenue is stored as 0,
    the payback period is not a finite number. *)
Theorem paybackPeriod_zero_revenue a k :
  break_even_index a = Some (S k) ->
  Math_round (revenue_at a (S k)) = Fin 0 ->
  exists v, paybackPeriod a = Ok v /\ isFinite v = false.
Proof.
  intros Hidx Hrev. rewrite paybackPeriod_formula, Hidx, Hrev.
  eexists. split; [reflexivity|].
  apply nadd_not_finite. now apply ndiv_zero_not_finite.
Qed.

Lemma paybackPeriod_zero_revenue_small :
  break_even_index small_revenue_scenario = Some 1%nat /\
  Math_round (revenue_at small_revenue_scenario 1) = Fin 0 /\
  exists v, paybackPeriod small_revenue_scenario = Ok v /\
            isFinite v = false.
Proof.
  assert (H1 : break_even_index small_revenue_scenario = Some 1%nat)
    by (vm_compute; reflexivity).
  assert (H2 : Math_round (revenue_at small_revenue_scenario 1) = Fin 0)
    by (vm_compute; reflexivity).
  split; [exact H1|]. split; [exact H2|].
  exact (paybackPeriod_zero_revenue small_revenue_scenario H1 H2).
Defined.

(** *** Flat scenario *)

Lemma pow_of_one q i :
  (q == 1)%Q -> exists pw, Math_pow (Fin q) i = Fin pw /\ (pw == 1)%Q.
Proof.
  intros Hq. destruct i as [|i]; cbn [Math_pow].
  - exists 1%Q. split; reflexivity.
  - eexists. split; [reflexivity|].
    rewrite Qred_correct, Hq. apply Qpower_1.
Qed.

Lemma nmul_by_one t w pw :
  w = Fin pw -> (pw == 1)%Q -> nmul (Fin t) w = Fin (Qred t).
Proof.
  intros -> Hp. cbn [nmul]. f_equal. apply Qred_complete.
  rewrite Hp. ring.
Qed.

Lemma flat_yield a i :
  (panelDegradation a == 0)%Q ->
  yield_at a i = Fin (Qred (annualYieldYear1 a)).
Proof.
  intros Hd. unfold yield_at. cbn [nsub nneg nadd].
  destruct (@pow_of_one (Qred (1 + - panelDegradation a)) i) as (pw & Hpw & H1).
  { rewrite Qred_correct, Hd. reflexivity. }
  now apply nmul_by_one with pw.
Qed.

Lemma flat_tariff a i :
  (inflationRate a == 0)%Q ->
  tariff_at a i = Fin (Qred (baseTariff a)).
Proof.
  intros Hr. unfold tariff_at. cbn [nadd].
  destruct (@pow_of_one (Qred (1 + inflationRate a)) i) as (pw & Hpw & H1).
  { rewrite Qred_correct, Hr. reflexivity. }
  now apply nmul_by_one with pw.
Qed.

(** X6.  Without degradation and without inflation every entry carries
    the tariff, the yield and the revenue of the first one; the yield is
    the first-year yield rounded to a whole unit. *)
Theorem flat_scenario a i p0 p :
  (panelDegradation a == 0)%Q ->
  (inflationRate a == 0)%Q ->
  nth_error (projections a) 0 = Some p0 ->
  nth_error (projections a) i = Some p ->
  tariff p = tariff p0 /\ yield p = yield p0 /\ revenue p = revenue p0 /\
  yield p = Math_round (Fin (annualYieldYear1 a)).
Proof.
  intros Hd Hr H0 Hi.
  apply projections_nth_inv in H0, Hi.
  destruct H0 as [_ ->], Hi as [_ ->].
  cbn [entry tariff yield revenue]. unfold revenue_at.
  rewrite !(flat_yield _ _ Hd), !(flat_tariff _ _ Hr).
  repeat split. cbn [Math_round]. do 2 f_equal.
  apply Qfloor_comp. now rewrite Qred_correct.
Qed.

Lemma flat_scenario_half_unit :
  (panelDegradation half_unit_scenario == 0)%Q /\
  (inflationRate half_unit_scenario == 0)%Q /\
  yield (entry half_unit_scenario 2) = Fin 199.
Proof.
  split; [reflexivity|]. split; [reflexivity|].
  assert (H0 : nth_error (projections half_unit_scenario) 0 =
               Some (entry half_unit_scenario 0)) by (vm_compute; reflexivity).
  assert (H2 : nth_error (projections half_unit_scenario) 2 =
               Some (entry half_unit_scenario 2)) by (vm_compute; reflexivity).
  destruct (@flat_scenario half_unit_scenario 2 _ _
              (Qeq_refl 0) (Qeq_refl 0) H0 H2) as (_ & _ & _ & H).
  rewrite H. reflexivity.
Defined.

(** *** Highlighted rows *)

Lemma nge_fin c k : nge (Fin c) (Fin k) = true <-> (k <= c)%Q.
Proof.
  unfold nge. cbn [ncompare]. rewrite Qge_alt.
  destruct (c ?= k)%Q; split; congruence.
Qed.

Lemma round_ascending c d :
  (c <= d)%Q ->
  (inject_Z (Qfloor (c + (1 # 2))) <= inject_Z (Qfloor (d + (1 # 2))))%Q.
Proof.
  intros H. rewrite <- Zle_Qle. apply Qfloor_resp_le. lra.
Qed.

(** X7.  When the station cost is a whole number, the row marked as the
    break-even year passes the test [cumulativeRevenue >= stationCost]
    that highlights its revenue cells. *)
Theorem break_even_row_highlighted a z i p :
  (stationCost a == inject_Z z)%Q ->
  nth_error (projections a) i = Some p ->
  isBreakEven p = true ->
  isAfterPayback a p = true.
Proof.
  intros Hz Hp Hflag. apply projections_nth_inv in Hp. destruct Hp as [_ ->].
  apply entry_flag in Hflag. destruct Hflag as [Hc _].
  unfold isAfterPayback, crossed in *. cbn [entry cumulativeRevenue].
  destruct (cumulative_at a i) as [c| | |]; try discriminate;
    [|reflexivity].
  apply nge_fin in Hc. cbn [Math_round]. apply nge_fin.
  rewrite Hz in *. rewrite <- (floor_half z) at 1.
  now apply round_ascending.
Qed.

Lemma break_even_row_highlighted_default :
  (stationCost DEFAULT_ASSUMPTIONS == inject_Z 694000)%Q /\
  isAfterPayback DEFAULT_ASSUMPTIONS (entry DEFAULT_ASSUMPTIONS 6) = true.
Proof.
  split; [reflexivity|].
  apply (@break_even_row_highlighted DEFAULT_ASSUMPTIONS 694000 6);
    vm_compute; reflexivity.
Defined.



(** *** Applying a simulated yield *)

(** X9.  After a whole-number annual yield is applied to the assumptions
    (the simulation hands over a rounded total), the first projected year
    shows exactly that yield, provided the lifetime is positive. *)
Theorem applied_yield_is_first_year a z :
  (0 < projectLifetime a)%Q ->
  option_map yield
    (nth_error (projections (handleApplyYield (inject_Z z) a)) 0) =
  Some (Fin (inject_Z z)).
Proof.
  intros Hpos.
  rewrite (@projections_nth (handleApplyYield (inject_Z z) a) 0)
    by (apply iterations_spec; exact Hpos).
  cbn [option_map entry yield]. unfold yield_at.
  cbn [Math_pow handleApplyYield annualYieldYear1 nmul Math_round].
  do 3 f_equal. rewrite <- (floor_half z) at 2.
  apply Qfloor_comp. rewrite Qred_correct. ring.
Qed.

Lemma applied_yield_is_first_year_default :
  (0 < projectLifetime DEFAULT_ASSUMPTIONS)%Q /\
  option_map yield
    (nth_error (projections (handleApplyYield 85312 DEFAULT_ASSUMPTIONS)) 0) =
  Some (Fin 85312).
Proof.
  split; [reflexivity|].
  apply (@applied_yield_is_first_year DEFAULT_ASSUMPTIONS 85312).
  reflexivity.
Defined.

End EngineMore.

(* ================================================================== *)
(** ** Properties of the bar charts and of the export names *)
(* ================================================================== *)

Module ChartFacts.

Import Engine EngineFacts.

(** *** Maxima and ratios *)

Lemma finite_values (l : list number) :
  Forall (fun v => isFinite v = true) l -> exists ql, l = map Fin ql.
Proof.
  induction 1 as [|v l Hv _ [ql ->]].
  - now exists [].
  - destruct v as [c| | |]; try discriminate. now exists (c :: ql).
Qed.

Lemma max_fin c d :
  exists m, Math_max (Fin c) (Fin d) = Fin m /\
            (c <= m)%Q /\ (d <= m)%Q /\ (m = c \/ m = d).
Proof.
  unfold Math_max. cbn [ncompare].
  destruct (c ?= d)%Q eqn:E; HorizonFacts.compare_facts E.
  - exists c. repeat split; try lra. now left.
  - exists d. repeat split; try lra. now right.
  - exists c. repeat split; try lra. now left.
Qed.

Lemma fold_max_fin (l : list Q) : forall acc,
  exists m,
    fold_left Math_max (map Fin l) (Fin acc) = Fin m /\
    (acc <= m)%Q /\ (forall q, In q l -> (q <= m)%Q) /\
    (m = acc \/ In m l).
Proof.
  induction l as [|d l IH]; intros acc; cbn [map fold_left].
  - exists acc. repeat split; [lra | contradiction | now left].
  - destruct (max_fin acc d) as (m' & -> & Ha & Hd & Hm').
    destruct (IH m') as (m & -> & Hm & Hall & Hin).
    exists m. repeat split.
    + lra.
    + intros q [<-|Hq]; [lra | now apply Hall].
    + destruct Hin as [->|Hin]; [|right; now right].
      destruct Hm' as [->| ->]; [now left | right; now left].
Qed.

(** The largest of a list of finite values that is not empty. *)
Lemma max_all_fin (q : Q) (l : list Q) :
  exists m,
    Math_max_all (map Fin (q :: l)) = Fin m /\
    (forall v, In v (q :: l) -> (v <= m)%Q) /\ In m (q :: l).
Proof.
  unfold Math_max_all. cbn [map fold_left].
  change (Math_max NegInf (Fin q)) with (Fin q).
  destruct (fold_max_fin l q) as (m & -> & Hq & Hall & Hin).
  exists m. repeat split.
  - intros v [<-|Hv]; [exact Hq | now apply Hall].
  - destruct Hin as [->|Hin]; [now left | now right].
Qed.

(** A share [A / M] of a scale [k], for [0 <= A <= M]. *)
Lemma scaled_ratio (A M k : Q) :
  (0 <= A)%Q -> (A <= M)%Q -> (0 < M)%Q -> (0 <= k)%Q ->
  exists h, nmul (ndiv (Fin A) (Fin M)) (Fin k) = Fin h /\
            (0 <= h)%Q /\ (h <= k)%Q.
Proof.
  intros HA HAM HM Hk. cbn [ndiv]. unfold Qsign.
  rewrite (proj1 (Qgt_alt _ _) HM). cbn [nmul].
  eexists. split; [reflexivity|]. rewrite !Qred_correct.
  assert (H0 : (0 <= A / M)%Q) by (apply Qle_shift_div_l; lra).
  assert (H1 : (A / M <= 1)%Q) by (apply Qle_shift_div_r; lra).
  split.
  - now apply Qmult_le_0_compat.
  - setoid_replace k with (1 * k)%Q at 2 by ring.
    now apply Qmult_le_compat_r.
Qed.

Lemma firstn_incl (A : Type) (n : nat) : forall (l : list A) v,
  In v (firstn n l) -> In v l.
Proof.
  induction n as [|n IH]; intros [|w l] v; cbn [firstn In]; try tauto.
  intros [->|H]; [now left | right; now apply IH].
Qed.

(** *** [CashFlowProjection] *)

(** In the documented domain every stored cumulative revenue is a finite
    value that is not negative. *)
Lemma stored_cumulative_nonneg a p :
  documented_domain a -> In p (projections a) ->
  nonneg (cumulativeRevenue p).
Proof.
  intros Hdom Hin. apply In_nth_error in Hin. destruct Hin as [i Hi].
  apply projections_nth_inv in Hi. destruct Hi as [_ ->].
  cbn [entry cumulativeRevenue]. unfold cumulative_at.
  pose proof (cumulative_nonneg Hdom (S i)) as Hc.
  destruct (cumulative_upto a (S i)) as [c| | |]; cbn [nonneg] in Hc;
    try contradiction.
  cbn [Math_round nonneg]. change 0%Q with (inject_Z 0).
  rewrite <- Zle_Qle. apply Z.le_trans with (Qfloor (inject_Z 0)).
  - now rewrite Qfloor_Z.
  - apply Qfloor_resp_le. change (inject_Z 0) with 0%Q. lra.
Qed.

Lemma nonneg_values (l : list number) :
  Forall nonneg l ->
  exists ql, l = map Fin ql /\ Forall (fun q => (0 <= q)%Q) ql.
Proof.
  induction 1 as [|v l Hv _ (ql & -> & Hql)].
  - exists []. split; [reflexivity | constructor].
  - destruct v as [c| | |]; cbn [nonneg] in Hv; try contradiction.
    exists (c :: ql). split; [reflexivity | now constructor].
Qed.

(** The bars of a sequence whose stored cumulative revenues are finite
    and not negative. *)
Lemma bar_within_half projs cost d :
  (0 < cost)%Q ->
  Forall (fun p => nonneg (cumulativeRevenue p)) projs ->
  In d (CashFlow.displayData projs) ->
  exists h, CashFlow.barHeightPercent projs (Fin cost) d = Fin h /\
            (0 <= h)%Q /\ (h <= 100)%Q.
Proof.
  intros Hcost Hall Hd.
  assert (Hdisp : Forall nonneg
                    (map cumulativeRevenue (CashFlow.displayData projs))).
  { apply Forall_map, Forall_forall. intros p Hp.
    apply (proj1 (Forall_forall _ _) Hall). now apply firstn_incl in Hp. }
  destruct (nonneg_values Hdisp) as (ql & Hql & Hpos).
  assert (Hc : In (cumulativeRevenue d)
                  (map cumulativeRevenue (CashFlow.displayData projs)))
    by now apply in_map.
  rewrite Hql in Hc. apply in_map_iff in Hc. destruct Hc as (c & Hc & Hcin).
  unfold CashFlow.barHeightPercent, CashFlow.maxAbsValue, CashFlow.maxNet,
    CashFlow.maxCumulative, CashFlow.getNetValue.
  rewrite Hql, <- Hc.
  destruct ql as [|q0 ql]; [contradiction|].
  destruct (max_all_fin q0 ql) as (m & -> & Hmax & _).
  cbn [nsub nneg nadd].
  destruct (max_fin cost (Qred (m + - cost))) as (M & -> & HM1 & HM2 & _).
  cbn [Math_abs]. rewrite Qred_correct in HM2.
  assert (Hc0 : (0 <= c)%Q)
    by exact (proj1 (Forall_forall _ _) Hpos c Hcin).
  pose proof (Hmax c Hcin) as Hcm.
  apply scaled_ratio; try lra.
  - apply Qabs_nonneg.
  - apply Qabs_Qle_condition. rewrite Qred_correct. split; lra.
Qed.



(** *** [PdfPreview] *)

Lemma abs_distances a (l : list YearProjection) : forall ql,
  map cumulativeRevenue l = map Fin ql ->
  map (fun p => Math_abs (Report.netValue a p)) l =
  map Fin (map (fun c => Qabs (Qred (c + - stationCost a))) ql).
Proof.
  induction l as [|p l IH]; intros [|c ql] H; cbn [map] in *;
    try discriminate; [reflexivity|].
  injection H as Hp Hl. unfold Report.netValue at 1. rewrite Hp.
  cbn [nsub nneg nadd Math_abs]. f_equal. now apply IH.
Qed.



Lemma month_share_bounds d :
  In d Report.monthlyYieldData -> (0 <= snd d)%Q /\ (snd d <= 0.15)%Q.
Proof.
  unfold Report.monthlyYieldData. cbn [In].
  intros H; repeat (destruct H as [<-|H]; [cbn [snd]; split; lra|]).
  contradiction.
Qed.



(** X13.  The twelve monthly yields of the report are the first-year
    yield times the shares of the table, and the shares add up to 1.04:
    the months together show 104 percent of the annual yield. *)
Theorem report_months_total a :
  exists vs,
    map (Report.yieldValue a) Report.monthlyYieldData = map Fin vs /\
    (fold_right Qplus 0 vs == annualYieldYear1 a * 1.04)%Q.
Proof.
  exists (map (fun d => Qred (annualYieldYear1 a * snd d))
              Report.monthlyYieldData).
  split; [now rewrite map_map|].
  cbn [Report.monthlyYieldData map fold_right snd].
  rewrite !Qred_correct. ring.
Qed.

(** *** File names of the exports *)

Lemma no_space_append s t :
  Report.no_space (s ++ t) = Report.no_space s && Report.no_space t.
Proof.
  induction s as [|c s IH]; cbn [append Report.no_space]; [reflexivity|].
  now rewrite IH, andb_assoc.
Qed.

Lemma underscore_no_space s : forall in_run,
  Report.no_space (Report.underscore_from in_run s) = true.
Proof.
  induction s as [|c s IH]; intros in_run; cbn [Report.underscore_from];
    [reflexivity|].
  destruct (Text.is_space c) eqn:E.
  - destruct in_run; [apply IH|]. cbn [Report.no_space]. now rewrite IH.
  - cbn [Report.no_space]. now rewrite E, IH.
Qed.

Lemma underscore_keeps s :
  Report.no_space s = true -> Report.underscore_from false s = s.
Proof.
  induction s as [|c s IH]; cbn [Report.no_space Report.underscore_from];
    [reflexivity|].
  intros H. apply andb_true_iff in H. destruct H as [Hc Hs].
  apply negb_true_iff in Hc. rewrite Hc. now rewrite IH.
Qed.


End ChartFacts.

(* ================================================================== *)
(** ** Properties of the monthly yield views *)
(* ================================================================== *)

Module PerformanceFacts.

Import Performance ChartFacts.

Lemma min_fin c d :
  exists m, Math_min (Fin c) (Fin d) = Fin m /\
            (m <= c)%Q /\ (m <= d)%Q /\ (m = c \/ m = d).
Proof.
  unfold Math_min. cbn [ncompare].
  destruct (c ?= d)%Q eqn:E; HorizonFacts.compare_facts E.
  - exists c. repeat split; try lra. now left.
  - exists c. repeat split; try lra. now left.
  - exists d. repeat split; try lra. now right.
Qed.

Lemma energies_of (rs : list MonthlyData) :
  finite_energies rs -> exists ql, map energy rs = map Fin ql.
Proof.
  intros H. apply finite_values. now apply Forall_map.
Qed.

(** The scale of the bars on screen is a positive number. *)
Lemma maxMonthEnergy_positive results :
  ngt (maxMonthEnergy results) (Fin 0) = true.
Proof.
  destruct results as [[|r rs]|]; try reflexivity.
  unfold maxMonthEnergy.
  destruct (ngt (Math_max_all (map energy (r :: rs))) (Fin 0)) eqn:E;
    [exact E | reflexivity].
Qed.

Lemma ngt_fin c k : ngt (Fin c) (Fin k) = true <-> (k < c)%Q.
Proof.
  unfold ngt. cbn [ncompare]. rewrite Qgt_alt.
  destruct (c ?= k)%Q; split; congruence.
Qed.

(** X15.  The scale of the monthly bars on screen is positive whatever the
    yield holds ([NaN] included), and with finite monthly energies every
    bar has a height between 0 and 100 percent. *)
Theorem month_bars_fit results :
  ngt (maxMonthEnergy results) (Fin 0) = true /\
  (forall rs r,
      results = Some rs -> finite_energies rs -> In r rs ->
      exists h, barHeight results r = Fin h /\ (0 <= h)%Q /\ (h <= 100)%Q).
Proof.
  split; [apply maxMonthEnergy_positive|].
  intros rs r -> Hfin Hr.
  pose proof (maxMonthEnergy_positive (Some rs)) as Hpos.
  assert (He : isFinite (energy r) = true)
    by exact (proj1 (Forall_forall _ _) Hfin r Hr).
  destruct (energies_of Hfin) as (ql & Hql).
  unfold barHeight.
  assert (HM : exists M, maxMonthEnergy (Some rs) = Fin M).
  { unfold maxMonthEnergy. destruct rs as [|r0 rs']; [contradiction|].
    rewrite Hql. destruct ql as [|q0 ql']; [discriminate|].
    destruct (max_all_fin q0 ql') as (m & -> & _).
    destruct (ngt (Fin m) (Fin 0)); eexists; reflexivity. }
  destruct HM as [M HM]. rewrite HM in *. apply ngt_fin in Hpos.
  destruct (energy r) as [e| | |]; try discriminate.
  cbn [ndiv]. unfold Qsign. rewrite (proj1 (Qgt_alt _ _) Hpos). cbn [nmul].
  destruct (max_fin 0 (Qred (Qred (e / M) * 100))) as (m1 & -> & H0 & _).
  destruct (min_fin 100 m1) as (m2 & -> & H100 & _ & [-> | ->]);
    eexists; split; try reflexivity; lra.
Qed.

(** X16.  A month whose energy is positive and the largest of the yield
    has a bar of exactly 100 percent. *)
Theorem tallest_bar rs r :
  In r rs ->
  (forall r', In r' rs -> fin_le (energy r') (energy r)) ->
  ngt (energy r) (Fin 0) = true ->
  barHeight (Some rs) r = Fin 100.
Proof.
  intros Hr Hmax Hpos.
  assert (Hfin : finite_energies rs).
  { apply Forall_forall. intros r' Hr'. pose proof (Hmax r' Hr') as H.
    destruct (energy r'); cbn [fin_le] in H; try contradiction. reflexivity. }
  destruct (energies_of Hfin) as (ql & Hql).
  pose proof (Hmax r Hr) as Hrr.
  destruct (energy r) as [e| | |] eqn:He; cbn [fin_le] in Hrr;
    try contradiction.
  apply ngt_fin in Hpos.
  unfold barHeight, maxMonthEnergy.
  destruct rs as [|r0 rs']; [contradiction|]. rewrite Hql.
  destruct ql as [|q0 ql']; [discriminate|].
  destruct (max_all_fin q0 ql') as (m & -> & Hall & Hin).
  assert (Hem : (e <= m)%Q).
  { apply Hall.
    assert (H : In (Fin e) (map Fin (q0 :: ql')))
      by (rewrite <- Hql, <- He; now apply in_map).
    apply in_map_iff in H. destruct H as (v & Hv & Hin').
    injection Hv as ->. exact Hin'. }
  assert (Hme : (m <= e)%Q).
  { assert (H : In (Fin m) (map energy (r0 :: rs')))
      by (rewrite Hql; now apply in_map).
    apply in_map_iff in H. destruct H as (r' & Hr'e & Hr').
    pose proof (Hmax r' Hr') as H. rewrite Hr'e in H. rewrite ?He in H.
    exact H. }
  assert (Hm0 : (0 < m)%Q) by lra.
  rewrite (proj2 (ngt_fin m 0) Hm0). rewrite He.
  cbn [ndiv]. unfold Qsign. rewrite (proj1 (Qgt_alt _ _) Hm0).
  assert (E : Qred (e / m) = 1%Q).
  { change 1%Q with (Qred 1). apply Qred_complete.
    assert (Heq : (e == m)%Q) by (apply Qle_antisym; assumption).
    rewrite Heq. field. lra. }
  rewrite E. reflexivity.
Qed.

Lemma tallest_bar_june :
  In {| month := "JUN"; energy := Fin 10200 |} initial_results /\
  barHeight (Some initial_results)
            {| month := "JUN"; energy := Fin 10200 |} = Fin 100.
Proof.
  assert (Hin : In {| month := "JUN"; energy := Fin 10200 |} initial_results)
    by (cbn; tauto).
  split; [exact Hin|].
  apply (@tallest_bar initial_results _ Hin); [|reflexivity].
  intros r' Hr'. cbn in Hr'.
  repeat (destruct Hr' as [<-|Hr']; [cbn; lra|]). contradiction.
Defined.


(** X18.  When every month of the yield is zero, the bars of the report
    have the height [NaN], their scale being zero, while the bars on
    screen have the height 0. *)
Theorem zero_yield_bars rs d :
  In d rs ->
  (forall r, In r rs -> energy r = Fin 0) ->
  reportBarHeight (Some rs) d = NaN /\ barHeight (Some rs) d = Fin 0.
Proof.
  intros Hd Hz.
  assert (Hmap : map energy rs = map Fin (map (fun _ => 0%Q) rs)).
  { rewrite map_map. apply map_ext_in. exact Hz. }
  assert (Hmax : Math_max_all (map energy rs) = Fin 0).
  { destruct rs as [|r0 rs']; [contradiction|].
    change (map (fun _ => 0%Q) (r0 :: rs'))
      with (0%Q :: map (fun _ : MonthlyData => 0%Q) rs') in Hmap.
    rewrite Hmap.
    destruct (max_all_fin 0 (map (fun _ => 0%Q) rs')) as (m & -> & _ & Hin).
    f_equal. destruct Hin as [<-|Hin]; [reflexivity|].
    apply in_map_iff in Hin. now destruct Hin as (_ & <- & _). }
  unfold reportBarHeight, maxEnergy, barHeight, maxMonthEnergy.
  destruct rs as [|r0 rs']; [contradiction|].
  rewrite Hmax, (Hz d Hd). split; reflexivity.
Qed.

Lemma zero_yield_bars_sample :
  In {| month := "JAN"; energy := Fin 0 |} Samples.zero_results /\
  reportBarHeight (Some Samples.zero_results)
                  {| month := "JAN"; energy := Fin 0 |} = NaN.
Proof.
  assert (Hin : In {| month := "JAN"; energy := Fin 0 |} Samples.zero_results)
    by (cbn; tauto).
  split; [exact Hin|].
  apply (@zero_yield_bars Samples.zero_results _ Hin).
  intros r Hr. cbn in Hr. repeat (destruct Hr as [<-|Hr]; [reflexivity|]).
  contradiction.
Defined.

(** *** The months at the head of the sorted yield *)

Section Head.

Variable A : Type.
Variable comparefn : A -> A -> number.
Variable rank : A -> Q.
Variable P : A -> Prop.

(** On the elements that satisfy [P] the comparator orders by [rank]. *)
Hypothesis comparefn_rank : forall v w,
  P v -> P w ->
  (ngt (comparefn v w) (Fin 0) = true <-> (rank w < rank v)%Q).

Lemma sort_head (l : list A) :
  Forall P l -> l <> [] ->
  exists h,
    hd_error (Horizon.array_sort comparefn l) = Some h /\
    In h l /\ forall v, In v l -> (rank h <= rank v)%Q.
Proof.
  induction 1 as [|v l Hv Hl IH]; [congruence|]. intros _.
  cbn [Horizon.array_sort]. destruct l as [|w l'].
  - exists v. cbn. repeat split; [now left|]. intros ? [<-|[]]; lra.
  - destruct IH as (h & Hh & Hin & Hmin); [discriminate|].
    destruct (Horizon.array_sort comparefn (w :: l')) as [|h' t];
      [discriminate|].
    injection Hh as ->. cbn [Horizon.sort_insert].
    assert (Ph : P h) by exact (proj1 (Forall_forall _ _) Hl h Hin).
    pose proof (comparefn_rank Hv Ph) as Hcmp.
    destruct (ngt (comparefn v h) (Fin 0)).
    + exists h. cbn [hd_error]. repeat split; [now right|].
      intros x [<-|Hx]; [|now apply Hmin].
      apply Qlt_le_weak. now apply Hcmp.
    + exists v. cbn [hd_error]. repeat split; [now left|].
      assert (Hvh : (rank v <= rank h)%Q).
      { apply Qnot_lt_le. intros Hlt. apply Hcmp in Hlt. discriminate. }
      intros x [<-|Hx]; [lra|].
      eapply Qle_trans; [exact Hvh | now apply Hmin].
Qed.

End Head.

Lemma ascending_rank v w :
  isFinite (energy v) = true -> isFinite (energy w) = true ->
  (ngt (ascending v w) (Fin 0) = true <->
   (energy_value w < energy_value v)%Q).
Proof.
  unfold ascending, energy_value. rewrite HorizonFacts.comparator_positive.
  destruct (energy v) as [c| | |], (energy w) as [d| | |]; try discriminate.
  intros _ _. unfold nlt. cbn [ncompare]. rewrite Qlt_alt.
  destruct (d ?= c)%Q; split; congruence.
Qed.

Lemma descending_rank v w :
  isFinite (energy v) = true -> isFinite (energy w) = true ->
  (ngt (descending v w) (Fin 0) = true <->
   (- energy_value w < - energy_value v)%Q).
Proof.
  unfold descending, energy_value. rewrite HorizonFacts.comparator_positive.
  destruct (energy v) as [c| | |], (energy w) as [d| | |]; try discriminate.
  intros _ _. unfold nlt. cbn [ncompare].
  assert (H : (c < d)%Q <-> (- d < - c)%Q) by (split; intros; lra).
  rewrite <- H, Qlt_alt.
  destruct (c ?= d)%Q; split; congruence.
Qed.

(** X19.  For a yield with finite monthly energies that is not empty, the
    summary names as peak a month of the yield whose energy no other month
    exceeds, and as minimum a month whose energy none falls below. *)
Theorem summary_extremes rs totalAnnual numPanels panelWattage :
  rs <> [] -> finite_energies rs ->
  exists s pk mn,
    summaryData (Some rs) totalAnnual numPanels panelWattage = Some s /\
    peak s = Some pk /\ min s = Some mn /\
    In pk rs /\ In mn rs /\
    forall r, In r rs ->
      fin_le (energy r) (energy pk) /\ fin_le (energy mn) (energy r).
Proof.
  intros Hne Hfin.
  destruct (@sort_head _ descending (fun r => (- energy_value r)%Q)
              (fun r => isFinite (energy r) = true) descending_rank rs
              Hfin Hne) as (pk & Hpk & Hpkin & Hpkmax).
  destruct (@sort_head _ ascending energy_value
              (fun r => isFinite (energy r) = true) ascending_rank rs
              Hfin Hne) as (mn & Hmn & Hmnin & Hmnmin).
  destruct rs as [|r0 rs']; [congruence|].
  eexists; exists pk, mn. split; [reflexivity|].
  cbn [peak min].
  split; [exact Hpk|]. split; [exact Hmn|].
  split; [exact Hpkin|]. split; [exact Hmnin|].
  intros r Hr.
  pose proof (Hpkmax r Hr) as Hle1. pose proof (Hmnmin r Hr) as Hle2.
  pose proof (proj1 (Forall_forall _ _) Hfin r Hr) as Fr.
  pose proof (proj1 (Forall_forall _ _) Hfin pk Hpkin) as Fp.
  pose proof (proj1 (Forall_forall _ _) Hfin mn Hmnin) as Fm.
  unfold energy_value in Hle1, Hle2. cbn beta in Fr, Fp, Fm.
  destruct (energy r), (energy pk), (energy mn); try discriminate.
  cbn [fin_le]. split; lra.
Qed.

Lemma summary_extremes_initial :
  initial_results <> [] /\ finite_energies initial_results /\
  exists s,
    summaryData (Some initial_results) (Fin 85312) (Fin 100) (Fin 500) =
      Some s /\
    option_map month (peak s) = Some "JUN"%string /\
    option_map month (min s) = Some "JAN"%string.
Proof.
  assert (Hne : initial_results <> []) by discriminate.
  assert (Hfin : finite_energies initial_results)
    by (repeat constructor).
  split; [exact Hne|]. split; [exact Hfin|].
  destruct (@summary_extremes initial_results (Fin 85312) (Fin 100) (Fin 500)
              Hne Hfin) as (s & pk & mn & Hs & _).
  exists s. split; [exact Hs|].
  vm_compute in Hs. injection Hs as <-. split; reflexivity.
Defined.

End PerformanceFacts.

(* ================================================================== *)
(** ** More properties of the horizon silhouette and of its data *)
(* ================================================================== *)

Module SilhouetteFacts.

Import Horizon View HorizonFacts ViewFacts.

Section Component.

Context {rt : JsRuntime}.

(** *** A rim loop that does not stop *)

Lemma rim_loop_unbounded fuel : forall hi lo d,
  isFinite hi && isFinite lo = false ->
  nge hi lo = true ->
  rim_loop fuel hi lo d = None.
Proof.
  induction fuel as [|fuel IH]; intros hi lo d Hinf Hge; [reflexivity|].
  cbn [rim_loop]. rewrite Hge. apply IH.
  - destruct hi, lo; try discriminate; reflexivity.
  - destruct hi, lo; try discriminate; reflexivity.
Qed.


(** *** The zenith *)

(** X21.  A point at elevation 90 is drawn at the centre of the chart,
    (130, 130), whatever its azimuth, as long as the sine and the cosine of
    the plot angle are finite. *)
Theorem zenith_at_centre az :
  isFinite (Math_cos (nmul (nadd az (Fin 90)) (ndiv Math_PI (Fin 180))))
    = true ->
  isFinite (Math_sin (nmul (nadd az (Fin 90)) (ndiv Math_PI (Fin 180))))
    = true ->
  getCoords az (Fin 90) = {| x := Fin 130; y := Fin 130 |}.
Proof.
  intros Hc Hs. unfold getCoords.
  change (nmul radius (nsub (Fin 1) (ndiv (Fin 90) (Fin 90)))) with (Fin 0).
  change center with (Fin 130).
  destruct (Math_cos _) as [c| | |]; try discriminate.
  destruct (Math_sin _) as [s| | |]; try discriminate.
  cbn [nmul nadd].
  assert (E : forall v, Qred (130 + Qred (0 * v)) = 130%Q).
  { intros v. change 130%Q with (Qred 130) at 2. apply Qred_complete.
    rewrite Qred_correct. ring. }
  now rewrite !E.
Qed.

(** *** The silhouette of the report *)

Lemma visual_dummy_finite :
  Visual.dummy <> [] /\ Forall finite_azimuth Visual.dummy.
Proof.
  split; [discriminate|].
  unfold Visual.dummy. apply Forall_map, Forall_forall. intros a _.
  reflexivity.
Qed.


(** *** The rows read from the horizon service *)

Lemma parse_row_numbers line p :
  In p (parse_row line) ->
  isNaN (azimuth p) = false /\ isNaN (height p) = false.
Proof.
  unfold parse_row.
  destruct (Text.split_ws line) as [|p0 [|p1 rest]]; try contradiction.
  destruct (isNaN (parseFloat p0)) eqn:E0; [contradiction|].
  destruct (isNaN (parseFloat p1)) eqn:E1; [contradiction|].
  cbn [negb andb In]. intros [<-|[]]. now split.
Qed.

Lemma parseHorizon_numbers hText p :
  In p (parseHorizon hText) ->
  isNaN (azimuth p) = false /\ isNaN (height p) = false.
Proof.
  unfold parseHorizon.
  match goal with |- context [if ?b then _ else _] => destruct b end;
    [|contradiction].
  intros H. apply in_flat_map in H. destruct H as (line & _ & H).
  now apply parse_row_numbers with line.
Qed.

(** X23.  In every state of the view the profile held is either absent
    or a list that is not empty and whose rows all have an azimuth and a
    height other than [NaN]: the chart is never handed an empty list, and
    the comparator of its sort never yields [NaN] from a [NaN] azimuth. *)
Theorem held_profile_is_numeric events :
  match horizonData (run events) with
  | None => isDataReal (run events) = false
  | Some h =>
      h <> [] /\
      Forall (fun p => isNaN (azimuth p) = false /\ isNaN (height p) = false)
             h
  end.
Proof.
  pose proof (run_inv events) as Hinv. unfold state_inv in Hinv.
  destruct (horizonData (run events)) as [h|]; [|exact Hinv].
  destruct Hinv as [Hne [hText ->]]. split; [exact Hne|].
  apply Forall_forall. intros p Hp. now apply parseHorizon_numbers with hText.
Qed.

End Component.


Lemma zenith_at_centre_sample :
  getCoords (rt := SmallRuntime.runtime) (Fin 30) (Fin 90) =
  {| x := Fin 130; y := Fin 130 |}.
Proof.
  apply (@zenith_at_centre SmallRuntime.runtime (Fin 30)); reflexivity.
Defined.

End SilhouetteFacts.

(* ================================================================== *)
(** ** Properties of the project database *)
(* ================================================================== *)

Module StorageFacts.

Import Storage AppDatabase StorageOrder.

Lemma filter_newest_first (f : SavedProject -> bool) l :
  newest_first l -> newest_first (filter f l).
Proof.
  unfold newest_first. induction 1 as [|p l Hs IH Hf]; cbn [filter].
  - constructor.
  - destruct (f p); [|exact IH]. constructor; [exact IH|].
    apply Forall_forall. intros q Hq. apply filter_In in Hq.
    exact (proj1 (Forall_forall _ _) Hf q (proj1 Hq)).
Qed.

Lemma filter_fresh target l :
  ~ In target (map id l) ->
  filter (fun p => negb (String.eqb (id p) target)) l = l.
Proof.
  induction l as [|p l IH]; intros Hn; [reflexivity|]. cbn [filter].
  destruct (String.eqb_spec (id p) target) as [E|E].
  - exfalso. apply Hn. left. exact E.
  - cbn [negb]. f_equal. apply IH. intros Hin. apply Hn. now right.
Qed.

Section Handlers.

Context {rt : JsRuntime}.

Lemma step_in_sync s e : in_sync s -> in_sync (step s e).
Proof.
  unfold in_sync. intros H. destruct e; cbn; try exact H; reflexivity.
Qed.

Lemma run_from_in_sync events : forall s,
  in_sync s -> in_sync (fold_left step events s).
Proof.
  induction events as [|e events IH]; intros s H; [exact H|].
  cbn [fold_left]. apply IH. now apply step_in_sync.
Qed.

Lemma run_in_sync ls events : in_sync (run ls events).
Proof. apply run_from_in_sync. reflexivity. Qed.

Lemma step_keeps p s e :
  e <> DeleteProject (id p) ->
  In p (getAllProjects (localStorage s)) ->
  In p (getAllProjects (localStorage (step s e))).
Proof.
  intros Hne Hin. destruct e; cbn; try exact Hin.
  - right. exact Hin.
  - apply filter_In. split; [exact Hin|].
    destruct (String.eqb_spec (id p) target) as [E|E]; [|reflexivity].
    exfalso. apply Hne. now rewrite E.
Qed.

Lemma run_from_keeps p events : forall s,
  Forall (fun e => e <> DeleteProject (id p)) events ->
  In p (getAllProjects (localStorage s)) ->
  In p (getAllProjects (localStorage (fold_left step events s))).
Proof.
  induction events as [|e events IH]; intros s Hf Hin; [exact Hin|].
  cbn [fold_left]. inversion Hf; subst. apply IH; [assumption|].
  now apply step_keeps.
Qed.

(** X24.  After any sequence of actions the list of saved projects
    that the component shows is the list held in the browser storage. *)
Theorem shown_projects_are_stored ls events :
  savedProjects (run ls events) =
  getAllProjects (localStorage (run ls events)).
Proof. exact (run_in_sync ls events). Qed.

(** X25.  Deleting by id removes every project with that id and no
    other, keeps the order of the rest, and leaves a readable list even
    where the item was missing or unreadable; deleting the same id again
    changes nothing. *)
Theorem delete_removes_exactly ls target :
  (forall p, In p (getAllProjects (deleteProject ls target)) <->
             In p (getAllProjects ls) /\ id p <> target) /\
  (exists kept, deleteProject ls target = Stored kept /\
                forall p q rest more,
                  kept = rest ++ p :: more -> In q more ->
                  exists l1 l2 l3,
                    getAllProjects ls = l1 ++ p :: l2 ++ q :: l3) /\
  deleteProject (deleteProject ls target) target = deleteProject ls target.
Proof.
  split; [|split].
  - intros p. unfold deleteProject. cbn [getAllProjects].
    rewrite filter_In. split; intros [Hin Hid]; (split; [exact Hin|]).
    + destruct (String.eqb_spec (id p) target); [discriminate|assumption].
    + destruct (String.eqb_spec (id p) target); [contradiction|reflexivity].
  - eexists. split; [reflexivity|].
    generalize (getAllProjects ls) as l.
    induction l as [|r l IH]; intros p q rest more Hk Hq.
    + destruct rest; discriminate.
    + cbn [filter] in Hk.
      destruct (negb (String.eqb (id r) target)).
      * destruct rest as [|r' rest].
        -- injection Hk as -> Hm.
           assert (Hin : In q l).
           { assert (Hq' : In q (filter (fun p0 =>
                        negb (String.eqb (id p0) target)) l))
               by (rewrite Hm; exact Hq).
             apply filter_In in Hq'. exact (proj1 Hq'). }
           apply in_split in Hin. destruct Hin as (l2 & l3 & ->).
           exists [], l2, l3. reflexivity.
        -- injection Hk as -> Hm.
           destruct (IH p q rest more Hm Hq) as (l1 & l2 & l3 & ->).
           exists (r' :: l1), l2, l3. reflexivity.
      * destruct (IH p q rest more Hk Hq) as (l1 & l2 & l3 & ->).
        exists (r :: l1), l2, l3. reflexivity.
  - unfold deleteProject. cbn [getAllProjects]. f_equal.
    induction (getAllProjects ls) as [|r l IH]; [reflexivity|].
    cbn [filter]. destruct (negb (String.eqb (id r) target)) eqn:E.
    + cbn [filter]. rewrite E. now f_equal.
    + exact IH.
Qed.

(** X26.  Saving a project under an id that no stored project has and
    then deleting that id gives back the list read before the save. *)
Theorem save_then_delete ls project newId now :
  ~ In newId (map id (getAllProjects ls)) ->
  getAllProjects
    (deleteProject (fst (saveProject ls project newId now)) newId) =
  getAllProjects ls.
Proof.
  intros Hfresh. unfold deleteProject, saveProject.
  cbn [fst getAllProjects filter id]. rewrite String.eqb_refl. cbn [negb].
  now apply filter_fresh.
Qed.

(** X27.  A list that has the newest project first keeps that order
    under a delete, and under a save made when the clock is not behind the
    time stamps already stored. *)
Theorem newest_first_kept ls :
  newest_first (getAllProjects ls) ->
  (forall target, newest_first (getAllProjects (deleteProject ls target))) /\
  (forall project newId now,
      not_before now (getAllProjects ls) ->
      newest_first
        (getAllProjects (fst (saveProject ls project newId now))) /\
      not_before now
        (getAllProjects (fst (saveProject ls project newId now)))).
Proof.
  intros Hs. split.
  - intros target. unfold deleteProject. cbn [getAllProjects].
    now apply filter_newest_first.
  - intros project newId now Hn. unfold saveProject.
    cbn [fst getAllProjects]. split.
    + constructor; [exact Hs|exact Hn].
    + constructor; [cbn [timestamp]; apply Z.le_refl|exact Hn].
Qed.

(** X28.  A scenario saved to the database stays in the list shown
    through every later action other than a delete of its id, and loading
    it from the list brings back the assumptions it was saved with and
    opens the dashboard. *)
Theorem saved_scenario_survives ls before newId now after :
  Forall (fun e => e <> DeleteProject newId) after ->
  let s := run ls before in
  let p := snd (saveProject (localStorage s) (draft_of (assumptions s))
                            newId now) in
  let s' := run ls (before ++ SaveToDatabase newId now :: after) in
  In p (savedProjects s') /\
  assumptions (step s' (LoadProject p)) = assumptions s /\
  activeTab (step s' (LoadProject p)) = "dashboard"%string.
Proof.
  intros Hf s p s'. split; [|split; reflexivity].
  subst s'.
  pose proof (run_in_sync ls (before ++ SaveToDatabase newId now :: after))
    as Hs.
  unfold in_sync in Hs. rewrite Hs. clear Hs.
  unfold run. rewrite fold_left_app. cbn [fold_left].
  apply run_from_keeps; [exact Hf|]. cbn. left. reflexivity.
Qed.

End Handlers.

Lemma save_then_delete_sample :
  getAllProjects
    (deleteProject
       (fst (saveProject (Stored [Samples.saved_default "NSE-DB-A" 1])
               (draft_of (rt := SmallRuntime.runtime) DEFAULT_ASSUMPTIONS)
               "NSE-DB-B" 2))
       "NSE-DB-B") =
  [Samples.saved_default "NSE-DB-A" 1].
Proof.
  apply (@save_then_delete (Stored [Samples.saved_default "NSE-DB-A" 1])).
  intros [H|[]]. vm_compute in H. discriminate H.
Defined.

Lemma newest_first_kept_sample :
  newest_first
    (getAllProjects
       (fst (saveProject (Stored [Samples.saved_default "NSE-DB-A" 1])
               (draft_of (rt := SmallRuntime.runtime) DEFAULT_ASSUMPTIONS)
               "NSE-DB-B" 2))).
Proof.
  assert (Hs : newest_first
                 (getAllProjects
                    (Stored [Samples.saved_default "NSE-DB-A" 1]))).
  { constructor; constructor. }
  apply (proj2 (newest_first_kept _ Hs)).
  constructor; [|constructor]. vm_compute. discriminate.
Defined.

Lemma saved_scenario_survives_sample :
  In (Samples.saved_default "NSE-DB-A" 1)
     (savedProjects
        (run (rt := SmallRuntime.runtime) Absent
           ([] ++ SaveToDatabase "NSE-DB-A" 1 ::
                  [SetActiveTab "database"; DeleteProject "NSE-DB-B"]))).
Proof.
  assert (Hf : Forall (fun e => e <> DeleteProject "NSE-DB-A")
                 [SetActiveTab "database"; DeleteProject "NSE-DB-B"]).
  { constructor; [discriminate|]. constructor; [discriminate|constructor]. }
  exact (proj1 (@saved_scenario_survives SmallRuntime.runtime Absent []
                  "NSE-DB-A" 1 _ Hf)).
Defined.

End StorageFacts.
